(** * Celestial-Orbit-Visualizer: the orbit-sampling and frame-building pipeline

    The repository holds two Python scripts:
    - [simulator.py], a script that builds one Plotly figure of a fixed orbit;
    - [dash simulation.py], a Dash application whose callback [update_orbit]
      rebuilds the figure whenever a slider moves.

    Both create a poliastro [Orbit] from classical elements, sample one
    period with [np.linspace(0, period, num=100)], propagate the orbit to
    every sampled time offset and assemble three traces and one animation
    frame per sample.

    Numbers: the scripts compute with binary64 floats; this development
    reads them as real numbers, so every statement below is about the exact
    arithmetic the floats approximate.  Quantities carry their unit in the
    name of the field or in its comment (km, s, degrees), which is the unit
    the scripts attach with [* u.km], [* u.deg] and strip with [.value].

    Library calls: [orbit.period] and [orbit.propagate(t).r] are modelled as
    total functions.  The library itself raises on elements it cannot
    propagate (a semi-major axis that is not positive, an eccentricity below
    0), so a statement that sampling returns something is made only for a
    positive semi-major axis and an eccentricity in [0, 1). *)

From Stdlib Require Import Reals Lra Lia List String ZArith Arith.
From Stdlib Require Import DecimalString DecimalNat DecimalZ.
Import ListNotations.

Open Scope R_scope.

(** ** Python exceptions and results *)

(** The exception classes that the modelled code can raise. *)
Inductive exn : Type :=
| ValueError (msg : string)
| IndexError (msg : string).

(** The outcome of evaluating a Python expression: a value or a raised
    exception. *)
Inductive Result (A : Type) : Type :=
| Ok (v : A)
| Raise (e : exn).

Arguments Ok {A} v.
Arguments Raise {A} e.

Definition bind {A B : Type} (r : Result A) (f : A -> Result B) : Result B :=
  match r with
  | Ok v => f v
  | Raise e => Raise e
  end.

Declare Scope result_scope.
Delimit Scope result_scope with result.
Notation "x <- r ;; k" := (bind r (fun x => k))
  (at level 61, r at next level, right associativity) : result_scope.
Notation "' pat <- r ;; k" := (bind r (fun x => match x with pat => k end))
  (at level 61, pat pattern, r at next level, right associativity) : result_scope.

(** A list comprehension whose element expression may raise: the first
    exception aborts the comprehension. *)
Fixpoint mapM {A B : Type} (f : A -> Result B) (l : list A) : Result (list B) :=
  match l with
  | [] => Ok []
  | a :: l' =>
      match f a with
      | Raise e => Raise e
      | Ok b =>
          match mapM f l' with
          | Raise e => Raise e
          | Ok bs => Ok (b :: bs)
          end
      end
  end.

(** [seq[i]] for a tuple or list and a non-negative index. *)
Definition getitem {A : Type} (l : list A) (i : nat) : Result A :=
  match nth_error l i with
  | Some v => Ok v
  | None => Raise (IndexError "tuple index out of range")
  end.

(** [range(n)]. *)
Definition range (n : nat) : list nat := seq 0 n.

(** [str(i)] for a non-negative integer, as an f-string prints it. *)
Definition str_of_nat (i : nat) : string :=
  NilEmpty.string_of_uint (Nat.to_uint i).

(** [str(i)] for an integer. *)
Definition str_of_Z (i : Z) : string :=
  NilEmpty.string_of_int (Z.to_int i).

(** [range(start, stop, step)]: a zero step raises; otherwise the values
    [start + k * step] for [k] below the length that CPython computes,
    [(hi - lo - 1) // step + 1] when [lo < hi] and 0 when not. *)
Definition range_step (start stop step : Z) : Result (list Z) :=
  if (step =? 0)%Z then Raise (ValueError "range() arg 3 must not be zero")
  else
    let len :=
      if (0 <? step)%Z then
        if (start <? stop)%Z then ((stop - start - 1) / step + 1)%Z else 0%Z
      else
        if (stop <? start)%Z then ((start - stop - 1) / (- step) + 1)%Z
        else 0%Z in
    Ok (map (fun k => (start + Z.of_nat k * step)%Z) (seq 0 (Z.to_nat len))).

(** A dict with string keys, in insertion order. *)
Definition dict (V : Type) : Type := list (string * V).

(** ** numpy *)

(** Replace the last element, numpy's [y[-1] = stop]. *)
Definition set_last (y : list R) (v : R) : list R :=
  match y with
  | [] => []
  | _ => removelast y ++ [v]
  end.

(** Modelled from the spec: [np.linspace] is numpy's and not part of the
    repository.  Spec 4.1 step 2: "evenly spaced time offsets in
    [0, period], inclusive of both endpoints".  The definition is numpy's
    formula for [np.linspace(start, stop, num)] with the default
    [endpoint=True]: [step = (stop - start) / (num - 1)],
    [y = arange(0, num) * step + start], and for [num > 1] the last element
    is overwritten with [stop]. *)
Definition linspace (start stop : R) (num : nat) : list R :=
  let div := (num - 1)%nat in
  let step := (stop - start) / INR div in
  let y := map (fun i => INR i * step + start) (seq 0 num) in
  if (1 <? num)%nat then set_last y stop else y.

(** ** poliastro and astropy *)

(** 3-vectors, in km. *)
Definition vec3 : Type := (R * R * R)%type.

Definition norm (v : vec3) : R :=
  let '(vx, vy, vz) := v in sqrt (vx * vx + vy * vy + vz * vz).

(** Rotation of a vector about the third axis by [theta] radians. *)
Definition rot_z (theta : R) (v : vec3) : vec3 :=
  let '(vx, vy, vz) := v in
  (vx * cos theta - vy * sin theta, vx * sin theta + vy * cos theta, vz).

(** Rotation of a vector about the first axis by [theta] radians. *)
Definition rot_x (theta : R) (v : vec3) : vec3 :=
  let '(vx, vy, vz) := v in
  (vx, vy * cos theta - vz * sin theta, vy * sin theta + vz * cos theta).

(** Degrees to radians, astropy's [.to(u.rad)]. *)
Definition rad (deg : R) : R := deg * PI / 180.

(** A central body of [poliastro.bodies]: gravitational parameter [k]
    (km^3/s^2) and equatorial radius (km). *)
Record Body : Type := mkBody {
  body_k : R;
  body_R : R
}.

(** [poliastro.bodies.Earth], with the constants of [poliastro.constants]
    ([GM_earth], [R_earth]) expressed in km. *)
Definition Earth : Body :=
  {| body_k := 398600.4418; body_R := 6378.1366 |}.

Module Orbit.

(** A two-body orbit in classical elements: semi-major axis (km),
    eccentricity, and inclination, right ascension of the ascending node,
    argument of perigee and true anomaly in degrees. *)
Record t : Type := mk {
  attractor : Body;
  a : R;
  ecc : R;
  inc : R;
  raan : R;
  argp : R;
  nu : R
}.

(** True anomaly brought back into [-180, 180) degrees. *)
Definition wrap_nu (nu : R) : R :=
  if Rle_dec (-180) nu then
    if Rlt_dec nu 180 then nu
    else nu + 180 - 360 * IZR (Int_part ((nu + 180) / 360)) - 180
  else nu + 180 - 360 * IZR (Int_part ((nu + 180) / 360)) - 180.

(** [Orbit.from_classical(attractor, a, ecc, inc, raan, argp, nu)].
    This is the library's constructor, not code of the scripts; the model
    follows the checks the library makes: a parabolic eccentricity, an
    inclination outside [0, 180] degrees and a hyperbolic eccentricity
    with a positive semi-major axis raise [ValueError].  Nothing compares
    the semi-major axis with the attractor's radius. *)
Definition from_classical (attractor : Body) (a ecc inc raan argp nu : R)
  : Result t :=
  if Req_dec_T ecc 1 then
    Raise (ValueError "For parabolic orbits use Orbit.parabolic instead")
  else if Rle_dec 0 inc then
    if Rle_dec inc 180 then
      if Rlt_dec 1 ecc then
        if Rlt_dec 0 a then
          Raise (ValueError "Hyperbolic orbits have negative semimajor axis")
        else Ok (mk attractor a ecc inc raan argp (wrap_nu nu))
      else Ok (mk attractor a ecc inc raan argp (wrap_nu nu))
    else Raise (ValueError "Inclination must be between 0 and 180 degrees")
  else Raise (ValueError "Inclination must be between 0 and 180 degrees").

(** Modelled from the spec: [orbit.period] is computed by poliastro, which
    is not part of the repository.  Spec 4.1 step 1: "period =
    2 pi sqrt(a^3 / mu)", with [a] the semi-major axis and [mu] the central
    body's gravitational parameter; the result is in seconds, which is
    what [.to(u.s).value] reads. *)
Definition period (o : t) : R :=
  2 * PI * sqrt (a o ^ 3 / body_k (attractor o)).

(** Modelled from the spec: [orbit.r], the body-centred position, is
    computed by poliastro.  Spec 4.1 step 3: "rotate perifocal coordinates
    into the inertial frame using inclination, RAAN, and argument of
    perigee".  The perifocal position at true anomaly [nu] lies at
    distance [p / (1 + e cos nu)], [p = a (1 - e^2)], from the focus. *)
Definition r_pqw (o : t) : vec3 :=
  let p := a o * (1 - ecc o * ecc o) in
  let d := p / (1 + ecc o * cos (rad (nu o))) in
  (d * cos (rad (nu o)), d * sin (rad (nu o)), 0).

Definition r (o : t) : vec3 :=
  rot_z (rad (raan o)) (rot_x (rad (inc o)) (rot_z (rad (argp o)) (r_pqw o))).

(** Conversions between the anomalies of an elliptic orbit (radians). *)
Definition nu_to_E (nu e : R) : R :=
  2 * atan (sqrt ((1 - e) / (1 + e)) * tan (nu / 2)).

Definition E_to_nu (E e : R) : R :=
  2 * atan (sqrt ((1 + e) / (1 - e)) * tan (E / 2)).

Definition E_to_M (E e : R) : R := E - e * sin E.

(** Mean motion, rad/s. *)
Definition n (o : t) : R := sqrt (body_k (attractor o) / a o ^ 3).

End Orbit.

(** Spec 3, the invariant of OrbitalElements: the semi-major axis exceeds
    the central body's radius and the eccentricity lies in [0, 1). *)
Definition valid_elements (body : Body) (a ecc : R) : Prop :=
  body_R body < a /\ 0 <= ecc < 1.

(** A central body has a positive gravitational parameter and a radius that
    is not negative. *)
Definition physical (body : Body) : Prop :=
  0 < body_k body /\ 0 <= body_R body.

(** ** plotly.graph_objects *)

Module go.

(** [line=dict(width=..., color=...)]. *)
Record Line : Type := mkLine {
  width : Z;
  line_color : string
}.

(** [marker=dict(size=..., color=...)]. *)
Record Marker : Type := mkMarker {
  size : Z;
  marker_color : string
}.

(** [go.Scatter3d(x=..., y=..., z=..., mode=..., line=..., marker=...,
    name=...)]; an attribute that the call leaves out is [None]. *)
Record Scatter3d : Type := mkScatter3d {
  x : list R;
  y : list R;
  z : list R;
  mode : string;
  line : option Line;
  marker : option Marker;
  name : option string
}.

(** [go.Frame(data=[...], name=...)]. *)
Record Frame : Type := mkFrame {
  frame_data : list Scatter3d;
  frame_name : string
}.

(** [go.Figure()] after its [add_trace] calls and the assignment to
    [fig.frames].  The layout (title, axis titles, play and pause buttons,
    size menus) holds no sampled data and is left out. *)
Record Figure : Type := mkFigure {
  data : list Scatter3d;
  frames : list Frame
}.

End go.

(** ** The sampling lines shared by the two scripts *)

Section Sampling.

(** The library's numerical solution [E] of Kepler's equation
    [M = E - e sin E], as a function of [M] and [e].  Nothing is assumed
    about it. *)
Variable kepler_E : R -> R -> R.

(** Modelled from the spec: [orbit.propagate(t)] is computed by poliastro.
    Spec 4.1 step 3: "propagate the orbit forward from the initial true
    anomaly ... (solve Kepler's equation for eccentric anomaly, convert to
    true anomaly ...)".  The elements other than the true anomaly are
    unchanged. *)
Definition propagate (o : Orbit.t) (tof : R) : Orbit.t :=
  let e := Orbit.ecc o in
  let M0 := Orbit.E_to_M (Orbit.nu_to_E (rad (Orbit.nu o)) e) e in
  let M := M0 + Orbit.n o * tof in
  let E := kepler_E M e in
  Orbit.mk (Orbit.attractor o) (Orbit.a o) e (Orbit.inc o) (Orbit.raan o)
    (Orbit.argp o) (Orbit.E_to_nu E e * 180 / PI).

(** The literal [num=100] of both [np.linspace] calls. *)
Definition num : nat := 100.

(** [time_span = np.linspace(0, period, num=100) * u.s], with
    [period = orbit.period.to(u.s).value]
    (simulator.py 23-24, dash simulation.py 100-101). *)
Definition time_span (orbit : Orbit.t) : list R :=
  let period := Orbit.period orbit in
  linspace 0 period num.

(** [propagated_positions = [orbit.propagate(t).r for t in time_span]]
    (simulator.py 25, dash simulation.py 102). *)
Definition propagated_positions (orbit : Orbit.t) : list vec3 :=
  map (fun t => Orbit.r (propagate orbit t)) (time_span orbit).

(** [zip] applied to the unpacked rows and assigned to three names: the
    three columns of a list of triples; with no row there is nothing to
    unpack. *)
Definition zip_star (rows : list vec3) : Result (list R * list R * list R) :=
  match rows with
  | [] => Raise (ValueError "not enough values to unpack (expected 3, got 0)")
  | _ =>
      Ok (map (fun pos => fst (fst pos)) rows,
          map (fun pos => snd (fst pos)) rows,
          map (fun pos => snd pos) rows)
  end.

(** [x_vals, y_vals, z_vals]: the columns of the rows [(pos[0].value,
    pos[1].value, pos[2].value) for pos in propagated_positions]
    (simulator.py 28, dash simulation.py 103). *)
Definition xyz_vals (orbit : Orbit.t) : Result (list R * list R * list R) :=
  zip_star (map (fun pos : vec3 => let '(p0, p1, p2) := pos in (p0, p1, p2))
              (propagated_positions orbit)).

(** The sampled trajectory as (time offset, position) pairs. *)
Definition samples (orbit : Orbit.t) : list (R * vec3) :=
  combine (time_span orbit) (propagated_positions orbit).

End Sampling.

(** ** simulator.py *)

Module simulator.
Section Script.

Variable kepler_E : R -> R -> R.

Local Open Scope result_scope.
Local Open Scope string_scope.

(** Lines 9-11. *)
Definition alt_perigee : R := 700.
Definition eccentricity : R := 0.1.
Definition inclination : R := 45.

(** Lines 12-20. *)
Definition orbit : Result Orbit.t :=
  Orbit.from_classical Earth (body_R Earth + alt_perigee) eccentricity
    inclination 0 0 0.

(** Lines 34-35. *)
Definition earth_size : Z := 15.
Definition satellite_size : Z := 6.

(** The orbit trace, lines 38-42 (named) and 64-67 (in a frame). *)
Definition orbit_trace (x_vals y_vals z_vals : list R) (name : option string)
  : go.Scatter3d :=
  go.mkScatter3d x_vals y_vals z_vals "lines"
    (Some (go.mkLine 2 "red")) None name.

(** The Earth marker, lines 45-50 and 68-72. *)
Definition earth_trace (name : option string) : go.Scatter3d :=
  go.mkScatter3d [0] [0] [0] "markers"
    None (Some (go.mkMarker earth_size "blue")) name.

(** The satellite marker, lines 53-58 and 73-77. *)
Definition satellite_trace (px py pz : R) (name : option string)
  : go.Scatter3d :=
  go.mkScatter3d [px] [py] [pz] "markers"
    None (Some (go.mkMarker satellite_size "green")) name.

(** One element of the comprehension of lines 61-81. *)
Definition frame (x_vals y_vals z_vals : list R) (i : nat) : Result go.Frame :=
  xi <- getitem x_vals i ;;
  yi <- getitem y_vals i ;;
  zi <- getitem z_vals i ;;
  Ok (go.mkFrame
        [orbit_trace x_vals y_vals z_vals None;
         earth_trace None;
         satellite_trace xi yi zi None]
        ("Frame " ++ str_of_nat i)).

(** Lines 61-81: [frames = [go.Frame(...) for i in range(len(x_vals))]]. *)
Definition frames (x_vals y_vals z_vals : list R) : Result (list go.Frame) :=
  mapM (frame x_vals y_vals z_vals) (range (List.length x_vals)).

(** The figure the script shows: lines 12-84. *)
Definition fig : Result go.Figure :=
  orbit <- orbit ;;
  ' (x_vals, y_vals, z_vals) <- xyz_vals kepler_E orbit ;;
  x0 <- getitem x_vals 0 ;;
  y0 <- getitem y_vals 0 ;;
  z0 <- getitem z_vals 0 ;;
  frames <- frames x_vals y_vals z_vals ;;
  Ok (go.mkFigure
        [orbit_trace x_vals y_vals z_vals (Some "Orbit Path");
         earth_trace (Some "Earth");
         satellite_trace x0 y0 z0 (Some "Satellite")]
        frames).

(** One entry of the update menus' button lists (lines 90-94, 101-105):
    [dict(method=..., args=[{"marker": [...]}], label=...)], where the list
    under ["marker"] holds, per trace, [None] or [dict(size=...)]. *)
Record Button : Type := mkButton {
  method : string;
  args : list (dict (list (option (dict Z))));
  label : string
}.

(** Lines 90-94, the dict appended for one [size]. *)
Definition earth_size_button (size : Z) : Button :=
  mkButton "update"
    [[("marker", [None; Some [("size", size)]; None])]]
    (str_of_Z size).

(** Lines 87-95: the loop over [range(5, 31, 5)] that appends to
    [earth_size_buttons]. *)
Definition earth_size_buttons : Result (list Button) :=
  sizes <- range_step 5 31 5 ;;
  Ok (fold_left (fun buttons size => (buttons ++ [earth_size_button size])%list)
        sizes []).

(** Lines 101-105, the dict appended for one [size]. *)
Definition satellite_size_button (size : Z) : Button :=
  mkButton "update"
    [[("marker", [None; None; Some [("size", size)]])]]
    (str_of_Z size).

(** Lines 98-106: the loop over [range(2, 13, 2)] that appends to
    [satellite_size_buttons]. *)
Definition satellite_size_buttons : Result (list Button) :=
  sizes <- range_step 2 13 2 ;;
  Ok (fold_left
        (fun buttons size => (buttons ++ [satellite_size_button size])%list)
        sizes []).

End Script.
End simulator.

(** ** dash simulation.py *)

Module dash_simulation.

(** The module-level names that [update_orbit] reads (lines 15-17). *)
Record Globals : Type := mkGlobals {
  default_eccentricity : R;
  default_inclination : R;
  default_sma : R
}.

(** The values bound when the module is loaded. *)
Definition module_globals : Globals :=
  {| default_eccentricity := 0.1;
     default_inclination := 45;
     default_sma := 7078 |}.

(** A computation that runs against the module's globals and either
    returns or raises. *)
Definition M (A : Type) : Type := Globals -> Result A * Globals.

Definition ret {A : Type} (v : A) : M A := fun g => (Ok v, g).

Definition bindM {A B : Type} (m : M A) (f : A -> M B) : M B :=
  fun g =>
    match m g with
    | (Ok v, g') => f v g'
    | (Raise e, g') => (Raise e, g')
    end.

(** Reading a global name. *)
Definition read {A : Type} (field : Globals -> A) : M A :=
  fun g => (Ok (field g), g).

(** A computation that touches no global. *)
Definition lift {A : Type} (r : Result A) : M A := fun g => (r, g).

Declare Scope callback_scope.
Delimit Scope callback_scope with callback.
Notation "x <- m ;; k" := (bindM m (fun x => k))
  (at level 61, m at next level, right associativity) : callback_scope.
Notation "' pat <- m ;; k" := (bindM m (fun x => match x with pat => k end))
  (at level 61, pat pattern, m at next level, right associativity)
  : callback_scope.

(** Lines 20-29. *)
Definition create_orbit (sma ecc inc : R) : Result Orbit.t :=
  Orbit.from_classical Earth sma ecc inc 0 0 0.

(** [dcc.Slider(id=..., min=..., max=..., step=..., value=..., marks=...,
    tooltip=...)]; [marks] is a dict with integer keys, in insertion order,
    and a slider without [tooltip] has [None]. *)
Record Slider : Type := mkSlider {
  id : string;
  min : R;
  max : R;
  step : R;
  value : R;
  marks : list (Z * string);
  tooltip : option (dict string)
}.

(** [d[k] = v] on a dict with integer keys: an existing key keeps its place
    and takes the new value, a new key goes to the end. *)
Fixpoint marks_set (d : list (Z * string)) (k : Z) (v : string)
  : list (Z * string) :=
  match d with
  | [] => [(k, v)]
  | (k', v') :: d' =>
      if (k' =? k)%Z then (k, v) :: d' else (k', v') :: marks_set d' k v
  end.

(** The dict comprehension [{i: str(i) for i in keys}]. *)
Definition marks_of (keys : list Z) : list (Z * string) :=
  fold_left (fun d i => marks_set d i (str_of_Z i)) keys [].

(** Lines 40-48; [value=default_sma] is read when the module is loaded. *)
Definition sma_slider : Result Slider :=
  (keys <- range_step 7000 16000 1000 ;;
   Ok (mkSlider "sma-slider" 7000 15000 500 (default_sma module_globals)
         (marks_of keys) (Some [("placement", "bottom")])))%result%string.

(** Lines 54-61. *)
Definition earth_size_slider : Result Slider :=
  (keys <- range_step 5 31 5 ;;
   Ok (mkSlider "earth-size-slider" 5 30 1 15 (marks_of keys) None))
  %result%string.

(** Lines 67-74. *)
Definition satellite_size_slider : Result Slider :=
  (keys <- range_step 2 13 2 ;;
   Ok (mkSlider "satellite-size-slider" 2 12 1 6 (marks_of keys) None))
  %result%string.

(** Lines 89-94, the decorator of [update_orbit]: the component property the
    callback writes, and the component properties it reads, in the order of
    the parameters [sma], [earth_size], [satellite_size]. *)
Definition callback_output : string * string :=
  ("orbit-graph", "figure")%string.

Definition callback_inputs : list (string * string) :=
  [("sma-slider", "value"); ("earth-size-slider", "value");
   ("satellite-size-slider", "value")]%string.

Section Callback.

Variable kepler_E : R -> R -> R.

Local Open Scope callback_scope.
Local Open Scope string_scope.

(** Line 97: [orbit = create_orbit(sma, default_eccentricity,
    default_inclination)]. *)
Definition update_orbit_orbit (sma : R) : M Orbit.t :=
  ecc <- read default_eccentricity ;;
  inc <- read default_inclination ;;
  lift (create_orbit sma ecc inc).

(** One element of the comprehension of lines 133-147. *)
Definition frame (x_vals y_vals z_vals : list R) (i : nat) : Result go.Frame :=
  (xi <- getitem x_vals i ;;
   yi <- getitem y_vals i ;;
   zi <- getitem z_vals i ;;
   Ok (go.mkFrame
         [go.mkScatter3d x_vals y_vals z_vals "lines" None None None;
          go.mkScatter3d [0] [0] [0] "markers" None None None;
          go.mkScatter3d [xi] [yi] [zi] "markers" None None None]
         ("frame_" ++ str_of_nat i)))%result.

(** Lines 133-147. *)
Definition frames (x_vals y_vals z_vals : list R) : Result (list go.Frame) :=
  mapM (frame x_vals y_vals z_vals) (range (List.length x_vals)).

(** Lines 95-180, the callback behind the three sliders. *)
Definition update_orbit (sma : R) (earth_size satellite_size : Z)
  : M go.Figure :=
  orbit <- update_orbit_orbit sma ;;
  ' (x_vals, y_vals, z_vals) <- lift (xyz_vals kepler_E orbit) ;;
  x0 <- lift (getitem x_vals 0) ;;
  y0 <- lift (getitem y_vals 0) ;;
  z0 <- lift (getitem z_vals 0) ;;
  frames <- lift (frames x_vals y_vals z_vals) ;;
  ret (go.mkFigure
         [go.mkScatter3d x_vals y_vals z_vals "lines"
            (Some (go.mkLine 2 "red")) None (Some "Orbit Path");
          go.mkScatter3d [0] [0] [0] "markers"
            None (Some (go.mkMarker earth_size "blue")) (Some "Earth");
          go.mkScatter3d [x0] [y0] [z0] "markers"
            None (Some (go.mkMarker satellite_size "green"))
            (Some "Satellite")]
         frames).

(** The callback invoked once per slider event, in order; the figures (or
    exceptions) it produced, oldest first, and the globals afterwards. *)
Fixpoint run_callbacks (events : list (R * Z * Z)) (g : Globals)
  : list (Result go.Figure) * Globals :=
  match events with
  | [] => ([], g)
  | (sma, earth_size, satellite_size) :: rest =>
      let '(out, g') := update_orbit sma earth_size satellite_size g in
      let '(outs, g'') := run_callbacks rest g' in
      (out :: outs, g'')
  end.

End Callback.
End dash_simulation.

(** ** Reading a figure *)

(** The trace draws one marker, at the given position. *)
Definition marker_at (pos : vec3) (tr : go.Scatter3d) : Prop :=
  go.x tr = [fst (fst pos)] /\ go.y tr = [snd (fst pos)] /\
  go.z tr = [snd pos] /\ go.mode tr = "markers"%string.

(** The trace draws a line through the given positions, in order. *)
Definition path_through (positions : list vec3) (tr : go.Scatter3d) : Prop :=
  go.x tr = map (fun pos => fst (fst pos)) positions /\
  go.y tr = map (fun pos => snd (fst pos)) positions /\
  go.z tr = map (fun pos => snd pos) positions /\
  go.mode tr = "lines"%string.

(** The animation has one frame per position; every frame holds the same
    path trace and the same central-body marker, followed by a marker at
    the position with the frame's index. *)
Definition frames_follow (positions : list vec3) (fig : go.Figure) : Prop :=
  List.length (go.frames fig) = List.length positions /\
  exists path body : go.Scatter3d,
    path_through positions path /\
    marker_at (0, 0, 0) body /\
    forall i pos, nth_error positions i = Some pos ->
      exists (sat : go.Scatter3d) (name : string),
        nth_error (go.frames fig) i = Some (go.mkFrame [path; body; sat] name) /\
        marker_at pos sat.

(** The figure before any animation: the path, the central body and the
    satellite marker, which sits on the sample taken at time offset 0. *)
Definition initial_marker_on_first_sample (samples : list (R * vec3))
    (fig : go.Figure) : Prop :=
  exists (pos : vec3) (path body sat : go.Scatter3d),
    nth_error samples 0 = Some (0, pos) /\
    go.data fig = [path; body; sat] /\
    go.name sat = Some "Satellite"%string /\
    marker_at pos sat.

(** The sampled coordinates that a figure carries: those of its first
    trace, the orbit path. *)
Definition trajectory_of (fig : go.Figure)
  : Result (list R * list R * list R) :=
  bind (getitem (go.data fig) 0)
    (fun path => Ok (go.x path, go.y path, go.z path)).

(** The trace has [n] points: its three coordinate lists have length [n]. *)
Definition trace_points (n : nat) (tr : go.Scatter3d) : Prop :=
  List.length (go.x tr) = n /\ List.length (go.y tr) = n /\
  List.length (go.z tr) = n.

(** The trace sets no line, no marker and no name. *)
Definition unstyled (tr : go.Scatter3d) : Prop :=
  go.line tr = None /\ go.marker tr = None /\ go.name tr = None.

(** The button is an ["update"] whose only argument holds, under
    ["marker"], one entry per trace of the figure: [dict(size=...)] at the
    position of the trace with the given name, [None] at every other
    position; its label is the size in decimal. *)
Definition carries_size_for (trace_name : string) (fig : go.Figure)
    (b : simulator.Button) : Prop :=
  exists (size : Z) (patch : list (option (dict Z))),
    simulator.method b = "update"%string /\
    simulator.args b = [[("marker"%string, patch)]] /\
    simulator.label b = str_of_Z size /\
    List.length patch = List.length (go.data fig) /\
    forall i tr, nth_error (go.data fig) i = Some tr ->
      (go.name tr = Some trace_name ->
       nth_error patch i = Some (Some [("size"%string, size)])) /\
      (go.name tr <> Some trace_name -> nth_error patch i = Some None).

(** The slider starts inside its bounds, and its marks have distinct keys
    inside the bounds, each labelled with the key in decimal. *)
Definition slider_consistent (s : dash_simulation.Slider) : Prop :=
  dash_simulation.min s <= dash_simulation.value s <= dash_simulation.max s /\
  NoDup (map fst (dash_simulation.marks s)) /\
  forall k lbl, In (k, lbl) (dash_simulation.marks s) ->
    dash_simulation.min s <= IZR k <= dash_simulation.max s /\
    lbl = str_of_Z k.

(** * Properties *)

(** ** numpy's [linspace] *)

Lemma length_set_last (y : list R) (v : R) :
  List.length (set_last y v) = List.length y.
Proof.
  destruct y as [|y0 y']; [reflexivity|].
  unfold set_last.
  rewrite length_app, removelast_firstn_len, length_firstn. simpl. lia.
Qed.

Lemma length_linspace (start stop : R) (n : nat) :
  List.length (linspace start stop n) = n.
Proof.
  unfold linspace.
  destruct (1 <? n)%nat.
  - now rewrite length_set_last, length_map, length_seq.
  - now rewrite length_map, length_seq.
Qed.

(** With at least two points the result is the arithmetic progression on
    the first [n - 1] indices followed by [stop] itself. *)
Lemma linspace_snoc (start stop : R) (n : nat) :
  (2 <= n)%nat ->
  linspace start stop n =
    map (fun i => INR i * ((stop - start) / INR (n - 1)) + start)
      (seq 0 (n - 1)) ++ [stop].
Proof.
  intros Hn. unfold linspace.
  assert (Hlt : (1 <? n)%nat = true) by (apply Nat.ltb_lt; lia).
  rewrite Hlt.
  assert (Hseq : seq 0 n = seq 0 (n - 1) ++ [(n - 1)%nat]).
  { replace n with (S (n - 1)) at 1 by lia. rewrite seq_S. reflexivity. }
  rewrite Hseq, map_app. simpl.
  set (front := map _ (seq 0 (n - 1))).
  unfold set_last.
  destruct (front ++ [_]) as [|h tl] eqn:E.
  - destruct front; discriminate.
  - rewrite <- E, removelast_last. reflexivity.
Qed.

(** Every point of [linspace] lies on the arithmetic progression, the
    overwritten last one included. *)
Lemma nth_linspace (start stop : R) (n i : nat) :
  (2 <= n)%nat -> (i < n)%nat ->
  nth i (linspace start stop n) 0 =
    start + INR i * ((stop - start) / INR (n - 1)).
Proof.
  intros Hn Hi.
  rewrite linspace_snoc by assumption.
  set (f := fun i : nat => INR i * ((stop - start) / INR (n - 1)) + start).
  destruct (Nat.lt_ge_cases i (n - 1)) as [Hlt | Hge].
  - rewrite app_nth1 by (rewrite length_map, length_seq; exact Hlt).
    rewrite nth_indep with (d' := f 0%nat)
      by (rewrite length_map, length_seq; exact Hlt).
    rewrite map_nth, seq_nth by exact Hlt.
    unfold f. simpl. lra.
  - assert (i = (n - 1)%nat) by lia. subst i.
    rewrite app_nth2 by (rewrite length_map, length_seq; lia).
    rewrite length_map, length_seq, Nat.sub_diag. simpl.
    assert (INR (n - 1) <> 0) by (apply not_0_INR; lia).
    field. assumption.
Qed.

Lemma last_linspace (start stop : R) (n : nat) :
  (2 <= n)%nat -> last (linspace start stop n) 0 = stop.
Proof.
  intros Hn. rewrite linspace_snoc by assumption. apply last_last.
Qed.

(** ** The library constructor and the period *)

Ltac decide_checks :=
  repeat match goal with
         | |- context [if ?d then _ else _] => destruct d
         end;
  try lra; try reflexivity; try discriminate.

Lemma Earth_physical : physical Earth.
Proof. unfold physical, Earth; simpl; lra. Qed.

Lemma wrap_nu_0 : Orbit.wrap_nu 0 = 0.
Proof. unfold Orbit.wrap_nu. decide_checks. Qed.

(** An orbit that the constructor returns holds the elements it was given. *)
Lemma from_classical_Ok_inv body a ecc inc raan argp nu o :
  Orbit.from_classical body a ecc inc raan argp nu = Ok o ->
  o = Orbit.mk body a ecc inc raan argp (Orbit.wrap_nu nu).
Proof.
  unfold Orbit.from_classical.
  repeat match goal with
         | |- context [if ?d then _ else _] => destruct d
         end; intros H; try discriminate H; now inversion H.
Qed.

(** Elliptic elements with an inclination in range are accepted. *)
Lemma from_classical_elliptic body a ecc inc raan argp nu :
  0 <= ecc < 1 -> 0 <= inc <= 180 ->
  Orbit.from_classical body a ecc inc raan argp nu =
    Ok (Orbit.mk body a ecc inc raan argp (Orbit.wrap_nu nu)).
Proof.
  intros He Hi. unfold Orbit.from_classical. decide_checks.
Qed.

Lemma period_pos (o : Orbit.t) :
  0 < body_k (Orbit.attractor o) -> 0 < Orbit.a o -> 0 < Orbit.period o.
Proof.
  intros Hk Ha. unfold Orbit.period.
  apply Rmult_lt_0_compat.
  - generalize PI_RGT_0; lra.
  - apply sqrt_lt_R0. apply Rdiv_lt_0_compat; [|exact Hk].
    apply pow_lt; exact Ha.
Qed.

Lemma Rpower_2_three_halves : Rpower 2 (3 / 2) = sqrt 8.
Proof.
  replace (3 / 2) with (INR 3 * / 2) by (simpl; lra).
  rewrite <- Rpower_mult, Rpower_pow by lra.
  replace (2 ^ 3) with 8 by lra.
  apply Rpower_sqrt; lra.
Qed.

(** Kepler's third law in the form the samplers rely on: scaling the
    semi-major axis by 2 scales the period by [sqrt 8]. *)
Lemma period_double body a ecc inc raan argp nu nu' :
  0 < body_k body -> 0 < a ->
  Orbit.period (Orbit.mk body (2 * a) ecc inc raan argp nu') =
    sqrt 8 * Orbit.period (Orbit.mk body a ecc inc raan argp nu).
Proof.
  intros Hk Ha. unfold Orbit.period. simpl.
  replace (2 * a * (2 * a * (2 * a * 1)) / body_k body)
    with (8 * (a * (a * (a * 1)) / body_k body)) by (field; lra).
  rewrite sqrt_mult_alt by lra.
  ring.
Qed.

(** ** Rotations and the position vector *)

Lemma norm_rot_z (theta : R) (v : vec3) : norm (rot_z theta v) = norm v.
Proof.
  destruct v as [[vx vy] vz]. unfold norm, rot_z.
  f_equal.
  pose proof (sin2_cos2 theta) as H. unfold Rsqr in H.
  replace ((vx * cos theta - vy * sin theta) * (vx * cos theta - vy * sin theta) +
           (vx * sin theta + vy * cos theta) * (vx * sin theta + vy * cos theta) +
           vz * vz)
    with ((vx * vx + vy * vy) * (sin theta * sin theta + cos theta * cos theta) +
          vz * vz) by ring.
  rewrite H. ring.
Qed.

Lemma norm_rot_x (theta : R) (v : vec3) : norm (rot_x theta v) = norm v.
Proof.
  destruct v as [[vx vy] vz]. unfold norm, rot_x.
  f_equal.
  pose proof (sin2_cos2 theta) as H. unfold Rsqr in H.
  replace (vx * vx +
           (vy * cos theta - vz * sin theta) * (vy * cos theta - vz * sin theta) +
           (vy * sin theta + vz * cos theta) * (vy * sin theta + vz * cos theta))
    with (vx * vx +
          (vy * vy + vz * vz) * (sin theta * sin theta + cos theta * cos theta))
    by ring.
  rewrite H. ring.
Qed.

(** The inertial position is as far from the focus as the perifocal one. *)
Lemma norm_r (o : Orbit.t) : norm (Orbit.r o) = norm (Orbit.r_pqw o).
Proof.
  unfold Orbit.r. now rewrite norm_rot_z, norm_rot_x, norm_rot_z.
Qed.

(** On a circular orbit the distance is the semi-major axis, whatever the
    true anomaly. *)
Lemma norm_r_circular (o : Orbit.t) :
  Orbit.ecc o = 0 -> 0 <= Orbit.a o -> norm (Orbit.r o) = Orbit.a o.
Proof.
  intros He Ha. rewrite norm_r. unfold Orbit.r_pqw, norm. rewrite He.
  set (th := rad (Orbit.nu o)).
  pose proof (sin2_cos2 th) as H. unfold Rsqr in H.
  replace (Orbit.a o * (1 - 0 * 0) / (1 + 0 * cos th)) with (Orbit.a o)
    by (field; lra).
  replace (Orbit.a o * cos th * (Orbit.a o * cos th) +
           Orbit.a o * sin th * (Orbit.a o * sin th) + 0 * 0)
    with (Orbit.a o * Orbit.a o * (sin th * sin th + cos th * cos th)) by ring.
  rewrite H, Rmult_1_r. apply sqrt_square. exact Ha.
Qed.

(** ** The sampled trajectory *)

Section SamplingProperties.

Variable kepler_E : R -> R -> R.

Lemma length_time_span (o : Orbit.t) : List.length (time_span o) = num.
Proof. apply length_linspace. Qed.

Lemma length_propagated_positions (o : Orbit.t) :
  List.length (propagated_positions kepler_E o) = num.
Proof.
  unfold propagated_positions. now rewrite length_map, length_time_span.
Qed.

(** The i-th time offset is i steps of [period / 99] away from 0. *)
Lemma nth_time_span (o : Orbit.t) (i : nat) :
  (i < num)%nat ->
  nth i (time_span o) 0 = INR i * (Orbit.period o / INR (num - 1)).
Proof.
  intros Hi. unfold time_span.
  rewrite nth_linspace by (unfold num in *; lia).
  rewrite Rminus_0_r. ring.
Qed.

Lemma nth_error_samples (o : Orbit.t) (i : nat) :
  (i < num)%nat ->
  nth_error (samples kepler_E o) i =
    Some (nth i (time_span o) 0,
          Orbit.r (propagate kepler_E o (nth i (time_span o) 0))).
Proof.
  intros Hi. unfold samples, propagated_positions.
  assert (Hlen : (i < List.length (time_span o))%nat)
    by (rewrite length_time_span; exact Hi).
  generalize dependent i.
  induction (time_span o) as [|t ts IH]; intros i Hi Hlen.
  - simpl in Hlen. lia.
  - destruct i as [|i]; simpl.
    + reflexivity.
    + simpl in Hlen.
      destruct (Nat.lt_ge_cases (S i) num) as [Hlt | Hge]; [|lia].
      apply IH; [unfold num in *|]; lia.
Qed.

(** C1. For valid elliptic elements the sampling step yields exactly 100
    (time offset, position) pairs, the literal [num=100] being the sample
    count of both scripts; the offsets start at 0, end at the orbital
    period, are [period / 99] apart, strictly increase and stay inside
    [0, period]; each position is the orbit propagated to its offset. *)
Theorem samples_evenly_spaced_over_one_period
    (body : Body) (a ecc inc raan argp nu : R) :
  physical body -> valid_elements body a ecc -> 0 <= inc <= 180 ->
  exists o : Orbit.t,
    Orbit.from_classical body a ecc inc raan argp nu = Ok o /\
    let ts := time_span o in
    let period := Orbit.period o in
    List.length (samples kepler_E o) = num /\
    map fst (samples kepler_E o) = ts /\
    (forall i, (i < num)%nat ->
       nth_error (samples kepler_E o) i =
         Some (nth i ts 0, Orbit.r (propagate kepler_E o (nth i ts 0)))) /\
    nth 0 ts 0 = 0 /\
    last ts 0 = period /\
    (forall i, (S i < num)%nat ->
       nth (S i) ts 0 - nth i ts 0 = period / INR (num - 1)) /\
    (forall i j, (i < j)%nat -> (j < num)%nat -> nth i ts 0 < nth j ts 0) /\
    (forall t, In t ts -> 0 <= t <= period).
Proof.
  intros [Hk HR] [Ha He] Hi.
  eexists. split; [apply from_classical_elliptic; assumption|].
  set (o := Orbit.mk body a ecc inc raan argp (Orbit.wrap_nu nu)).
  assert (Hp : 0 < Orbit.period o) by (apply period_pos; simpl; lra).
  assert (Hstep : 0 < Orbit.period o / INR (num - 1)).
  { apply Rdiv_lt_0_compat; [exact Hp|]. apply lt_0_INR. unfold num. lia. }
  cbv zeta.
  split; [|split; [|split; [|split; [|split; [|split; [|split]]]]]].
  - unfold samples.
    rewrite length_combine, length_time_span, length_propagated_positions.
    apply Nat.min_id.
  - unfold samples, propagated_positions.
    induction (time_span o) as [|t ts IH]; simpl; [reflexivity|].
    now rewrite IH.
  - intros i Hlt. now apply nth_error_samples.
  - rewrite nth_time_span by (unfold num; lia). simpl. ring.
  - unfold time_span. apply last_linspace. unfold num. lia.
  - intros i Hlt.
    rewrite !nth_time_span by lia.
    rewrite S_INR. ring.
  - intros i j Hij Hj.
    rewrite !nth_time_span by lia.
    apply Rmult_lt_compat_r; [exact Hstep|]. now apply lt_INR.
  - intros t Hin.
    destruct (In_nth _ _ 0 Hin) as [i [Hlt Hnth]].
    rewrite length_time_span in Hlt. subst t.
    rewrite nth_time_span by exact Hlt.
    assert (H0 : 0 <= INR i) by apply pos_INR.
    assert (H1 : INR i <= INR (num - 1)) by (apply le_INR; lia).
    assert (Hn : 0 < INR (num - 1)) by (apply lt_0_INR; unfold num; lia).
    split.
    + apply Rmult_le_pos; lra.
    + replace (Orbit.period o) with
        (INR (num - 1) * (Orbit.period o / INR (num - 1))) at 2
        by (field; lra).
      apply Rmult_le_compat_r; lra.
Qed.

(** C3. The period that spans the samples, the stop value handed to
    [np.linspace] and hence the last time offset, is
    [2 pi sqrt(a^3 / mu)] for the semi-major axis [a] given to the
    constructor and the gravitational parameter [mu] of the central
    body. *)
Theorem period_is_keplers_third_law
    (body : Body) (a ecc inc raan argp nu : R) :
  valid_elements body a ecc -> 0 <= inc <= 180 ->
  exists o : Orbit.t,
    Orbit.from_classical body a ecc inc raan argp nu = Ok o /\
    Orbit.period o = 2 * PI * sqrt (a ^ 3 / body_k body) /\
    time_span o = linspace 0 (2 * PI * sqrt (a ^ 3 / body_k body)) num /\
    last (time_span o) 0 = 2 * PI * sqrt (a ^ 3 / body_k body).
Proof.
  intros [Ha He] Hi.
  eexists. split; [apply from_classical_elliptic; assumption|].
  split; [reflexivity|]. split; [reflexivity|].
  unfold time_span. rewrite last_linspace by (unfold num; lia).
  reflexivity.
Qed.

(** C7. On a circular orbit (eccentricity 0) with a valid semi-major axis
    every one of the 100 sampled position vectors has magnitude exactly
    the semi-major axis. *)
Theorem circular_positions_at_semi_major_axis
    (body : Body) (a inc raan argp nu : R) :
  physical body -> valid_elements body a 0 -> 0 <= inc <= 180 ->
  exists o : Orbit.t,
    Orbit.from_classical body a 0 inc raan argp nu = Ok o /\
    List.length (propagated_positions kepler_E o) = num /\
    forall pos, In pos (propagated_positions kepler_E o) -> norm pos = a.
Proof.
  intros [Hk HR] [Ha He] Hi.
  eexists. split; [apply from_classical_elliptic; assumption|].
  split; [apply length_propagated_positions|].
  intros pos Hin. unfold propagated_positions in Hin.
  apply in_map_iff in Hin. destruct Hin as [t [Hpos _]]. subst pos.
  rewrite norm_r_circular; simpl; [reflexivity | reflexivity | lra].
Qed.

(** C8. For one central body, doubling a valid semi-major axis multiplies
    the period, and with it the last sampled time offset, by 2^1.5. *)
Theorem doubling_axis_scales_period
    (body : Body) (a ecc inc raan argp nu : R) :
  physical body -> valid_elements body a ecc -> 0 <= inc <= 180 ->
  exists o o2 : Orbit.t,
    Orbit.from_classical body a ecc inc raan argp nu = Ok o /\
    Orbit.from_classical body (2 * a) ecc inc raan argp nu = Ok o2 /\
    Orbit.period o2 = Rpower 2 (3 / 2) * Orbit.period o /\
    last (time_span o2) 0 = Rpower 2 (3 / 2) * last (time_span o) 0.
Proof.
  intros [Hk HR] [Ha He] Hi.
  do 2 eexists.
  split; [apply from_classical_elliptic; assumption|].
  split; [apply from_classical_elliptic; assumption|].
  assert (Hper : Orbit.period
                   (Orbit.mk body (2 * a) ecc inc raan argp (Orbit.wrap_nu nu)) =
                 Rpower 2 (3 / 2) *
                 Orbit.period
                   (Orbit.mk body a ecc inc raan argp (Orbit.wrap_nu nu))).
  { rewrite Rpower_2_three_halves. apply period_double; lra. }
  split; [exact Hper|].
  unfold time_span. rewrite !last_linspace by (unfold num; lia).
  exact Hper.
Qed.

End SamplingProperties.

(** ** Comprehensions and indexing *)

Lemma Ok_inj {A : Type} (v w : A) : Ok v = Ok w -> v = w.
Proof. intros H. now injection H. Qed.

Lemma getitem_Ok {A : Type} (l : list A) (i : nat) (d : A) :
  (i < List.length l)%nat -> getitem l i = Ok (nth i l d).
Proof.
  intros Hi. unfold getitem.
  now rewrite (nth_error_nth' l d Hi).
Qed.

(** A comprehension none of whose elements raises is a plain [map]. *)
Lemma mapM_Ok_map {A B : Type} (f : A -> Result B) (g : A -> B) (l : list A) :
  (forall v, In v l -> f v = Ok (g v)) -> mapM f l = Ok (map g l).
Proof.
  induction l as [|v l IH]; intros Hf; simpl; [reflexivity|].
  rewrite (Hf v) by (left; reflexivity).
  rewrite IH by (intros w Hw; apply Hf; right; exact Hw).
  reflexivity.
Qed.

Lemma nth_error_map_range {B : Type} (g : nat -> B) (n i : nat) :
  (i < n)%nat -> nth_error (map g (range n)) i = Some (g i).
Proof.
  intros Hi. unfold range.
  rewrite nth_error_map, nth_error_seq.
  assert (Hlt : (i <? n)%nat = true) by (apply Nat.ltb_lt; exact Hi).
  rewrite Hlt. reflexivity.
Qed.

Lemma zip_star_Ok (rows : list vec3) :
  rows <> [] ->
  zip_star rows =
    Ok (map (fun pos => fst (fst pos)) rows,
        map (fun pos => snd (fst pos)) rows,
        map (fun pos => snd pos) rows).
Proof.
  destruct rows; [congruence | reflexivity].
Qed.

(** ** The figures *)

Section FigureProperties.

Variable kepler_E : R -> R -> R.

Local Open Scope string_scope.

Lemma propagated_positions_not_nil (o : Orbit.t) :
  propagated_positions kepler_E o <> [].
Proof.
  intros H. pose proof (length_propagated_positions kepler_E o) as Hlen.
  rewrite H in Hlen. discriminate Hlen.
Qed.

(** The three coordinate tuples are the columns of the sampled
    positions; unpacking never fails because there are 100 rows. *)
Lemma xyz_vals_Ok (o : Orbit.t) :
  xyz_vals kepler_E o =
    Ok (map (fun pos => fst (fst pos)) (propagated_positions kepler_E o),
        map (fun pos => snd (fst pos)) (propagated_positions kepler_E o),
        map (fun pos => snd pos) (propagated_positions kepler_E o)).
Proof.
  unfold xyz_vals.
  assert (Hid : map (fun pos : vec3 => let '(p0, p1, p2) := pos in (p0, p1, p2))
                  (propagated_positions kepler_E o) =
                propagated_positions kepler_E o).
  { rewrite <- (map_id (propagated_positions kepler_E o)) at 2.
    apply map_ext. intros [[p0 p1] p2]. reflexivity. }
  rewrite Hid. apply zip_star_Ok, propagated_positions_not_nil.
Qed.

Lemma simulator_orbit_Ok :
  simulator.orbit =
    Ok (Orbit.mk Earth (body_R Earth + 700) 0.1 45 0 0 0).
Proof.
  unfold simulator.orbit, simulator.alt_perigee, simulator.eccentricity,
    simulator.inclination.
  rewrite from_classical_elliptic by lra.
  now rewrite wrap_nu_0.
Qed.

Lemma update_orbit_orbit_eq (sma : R) :
  dash_simulation.update_orbit_orbit sma dash_simulation.module_globals =
    (Ok (Orbit.mk Earth sma 0.1 45 0 0 0), dash_simulation.module_globals).
Proof.
  unfold dash_simulation.update_orbit_orbit, dash_simulation.bindM,
    dash_simulation.read, dash_simulation.lift, dash_simulation.create_orbit.
  simpl.
  rewrite from_classical_elliptic by lra.
  now rewrite wrap_nu_0.
Qed.


Local Abbreviation xs o := (map (fun pos : vec3 => fst (fst pos)) (propagated_positions kepler_E o)).
Local Abbreviation ys o := (map (fun pos : vec3 => snd (fst pos)) (propagated_positions kepler_E o)).
Local Abbreviation zs o := (map (fun pos : vec3 => snd pos) (propagated_positions kepler_E o)).

(** The figure of simulator.py, written out: no index is out of range,
    so nothing raises. *)
Lemma simulator_fig_Ok :
  let o := Orbit.mk Earth (body_R Earth + 700) 0.1 45 0 0 0 in
  simulator.fig kepler_E =
    Ok (go.mkFigure
          [simulator.orbit_trace (xs o) (ys o) (zs o) (Some "Orbit Path");
           simulator.earth_trace (Some "Earth");
           simulator.satellite_trace (nth 0 (xs o) 0) (nth 0 (ys o) 0)
             (nth 0 (zs o) 0) (Some "Satellite")]
          (map (fun i =>
                  go.mkFrame
                    [simulator.orbit_trace (xs o) (ys o) (zs o) None;
                     simulator.earth_trace None;
                     simulator.satellite_trace (nth i (xs o) 0)
                       (nth i (ys o) 0) (nth i (zs o) 0) None]
                    ("Frame " ++ str_of_nat i))
             (range num))).
Proof.
  intros o. unfold simulator.fig.
  rewrite simulator_orbit_Ok. cbn [bind]. fold o.
  rewrite xyz_vals_Ok. cbn [bind].
  assert (Hlen : forall f : vec3 -> R,
             List.length (map f (propagated_positions kepler_E o)) = num)
    by (intros f; now rewrite length_map, length_propagated_positions).
  rewrite !(getitem_Ok _ 0%nat 0) by (rewrite Hlen; unfold num; lia).
  cbn [bind].
  unfold simulator.frames. rewrite Hlen.
  erewrite mapM_Ok_map; [reflexivity|].
  intros i Hin. apply in_seq in Hin.
  unfold simulator.frame.
  rewrite !(getitem_Ok _ i 0) by (rewrite Hlen; lia).
  reflexivity.
Qed.

(** Line 97 reads two globals and changes none. *)
Lemma update_orbit_orbit_globals (sma : R) (g : dash_simulation.Globals) :
  snd (dash_simulation.update_orbit_orbit sma g) = g.
Proof. reflexivity. Qed.

(** The figure of the callback, written out, once line 97 has produced an
    orbit: no index is out of range, so nothing raises, and the globals are
    as they were. *)
Lemma update_orbit_Ok (g : dash_simulation.Globals) (sma : R)
    (earth_size satellite_size : Z) (o : Orbit.t) :
  fst (dash_simulation.update_orbit_orbit sma g) = Ok o ->
  dash_simulation.update_orbit kepler_E sma earth_size satellite_size g =
    (Ok (go.mkFigure
           [go.mkScatter3d (xs o) (ys o) (zs o) "lines"
              (Some (go.mkLine 2 "red")) None (Some "Orbit Path");
            go.mkScatter3d [0] [0] [0] "markers"
              None (Some (go.mkMarker earth_size "blue")) (Some "Earth");
            go.mkScatter3d [nth 0 (xs o) 0] [nth 0 (ys o) 0] [nth 0 (zs o) 0]
              "markers" None (Some (go.mkMarker satellite_size "green"))
              (Some "Satellite")]
           (map (fun i =>
                   go.mkFrame
                     [go.mkScatter3d (xs o) (ys o) (zs o) "lines" None None None;
                      go.mkScatter3d [0] [0] [0] "markers" None None None;
                      go.mkScatter3d [nth i (xs o) 0] [nth i (ys o) 0]
                        [nth i (zs o) 0] "markers" None None None]
                     ("frame_" ++ str_of_nat i))
              (range num))),
     g).
Proof.
  intros Ho.
  pose proof (update_orbit_orbit_globals sma g) as Hg.
  unfold dash_simulation.update_orbit.
  unfold dash_simulation.bindM at 1.
  destruct (dash_simulation.update_orbit_orbit sma g) as [out g'].
  simpl in Ho, Hg. subst out g'.
  unfold dash_simulation.bindM, dash_simulation.lift, dash_simulation.ret.
  rewrite xyz_vals_Ok.
  assert (Hlen : forall f : vec3 -> R,
             List.length (map f (propagated_positions kepler_E o)) = num)
    by (intros f; now rewrite length_map, length_propagated_positions).
  rewrite !(getitem_Ok _ 0%nat 0) by (rewrite Hlen; unfold num; lia).
  unfold dash_simulation.frames. rewrite Hlen.
  erewrite mapM_Ok_map; [reflexivity|].
  intros i Hin. apply in_seq in Hin.
  unfold dash_simulation.frame.
  rewrite !(getitem_Ok _ i 0) by (rewrite Hlen; lia).
  reflexivity.
Qed.

(** When line 97 raises, the callback raises the same exception and
    returns no figure. *)
Lemma update_orbit_Raise (g : dash_simulation.Globals) (sma : R)
    (earth_size satellite_size : Z) (e : exn) :
  fst (dash_simulation.update_orbit_orbit sma g) = Raise e ->
  dash_simulation.update_orbit kepler_E sma earth_size satellite_size g =
    (Raise e, g).
Proof.
  intros Ho.
  pose proof (update_orbit_orbit_globals sma g) as Hg.
  unfold dash_simulation.update_orbit.
  unfold dash_simulation.bindM at 1.
  destruct (dash_simulation.update_orbit_orbit sma g) as [out g'].
  simpl in Ho, Hg. now subst out g'.
Qed.

(** The callback reads the globals and never assigns them. *)
Lemma update_orbit_globals (g : dash_simulation.Globals) (sma : R)
    (earth_size satellite_size : Z) :
  snd (dash_simulation.update_orbit kepler_E sma earth_size satellite_size g) = g.
Proof.
  destruct (fst (dash_simulation.update_orbit_orbit sma g)) as [o|e] eqn:Ho.
  - now rewrite (update_orbit_Ok _ _ _ _ _ Ho).
  - now rewrite (update_orbit_Raise _ _ _ _ _ Ho).
Qed.

Lemma run_callbacks_globals (events : list (R * Z * Z))
    (g : dash_simulation.Globals) :
  snd (dash_simulation.run_callbacks kepler_E events g) = g.
Proof.
  revert g. induction events as [|[[sma es] ss] rest IH]; intros g.
  - reflexivity.
  - simpl.
    pose proof (update_orbit_globals g sma es ss) as Hg.
    destruct (dash_simulation.update_orbit kepler_E sma es ss g) as [out g'].
    simpl in Hg. subst g'.
    pose proof (IH g) as Hrest.
    destruct (dash_simulation.run_callbacks kepler_E rest g) as [outs g''].
    exact Hrest.
Qed.

Lemma nth_column (f : vec3 -> R) (positions : list vec3) (i : nat) (pos : vec3) :
  nth_error positions i = Some pos -> nth i (map f positions) 0 = f pos.
Proof.
  intros H. apply nth_error_nth.
  rewrite nth_error_map, H. reflexivity.
Qed.

Lemma nth_error_propagated_positions_0 (o : Orbit.t) :
  nth_error (propagated_positions kepler_E o) 0 =
    Some (Orbit.r (propagate kepler_E o 0)).
Proof.
  unfold propagated_positions.
  rewrite nth_error_map.
  assert (H0 : nth_error (time_span o) 0 = Some 0).
  { rewrite (nth_error_nth' _ 0) by (rewrite length_time_span; unfold num; lia).
    rewrite nth_time_span by (unfold num; lia). simpl. f_equal. ring. }
  rewrite H0. reflexivity.
Qed.

(** A figure whose frames are built index by index over [range n]. *)
Lemma frames_follow_map (positions : list vec3) (n : nat)
    (path body : go.Scatter3d) (sat : nat -> go.Scatter3d)
    (name : nat -> string) (data : list go.Scatter3d) :
  List.length positions = n ->
  path_through positions path ->
  marker_at (0, 0, 0) body ->
  (forall i pos, nth_error positions i = Some pos -> marker_at pos (sat i)) ->
  frames_follow positions
    (go.mkFigure data
       (map (fun i => go.mkFrame [path; body; sat i] (name i)) (range n))).
Proof.
  intros Hlen Hpath Hbody Hsat. unfold frames_follow. cbn [go.frames].
  split.
  - unfold range. now rewrite length_map, length_seq.
  - exists path, body. split; [exact Hpath|]. split; [exact Hbody|].
    intros i pos Hpos.
    assert (Hi : (i < n)%nat).
    { rewrite <- Hlen. apply nth_error_Some. rewrite Hpos. discriminate. }
    exists (sat i), (name i). split.
    + now rewrite nth_error_map_range by exact Hi.
    + now apply Hsat.
Qed.

Lemma length_samples (o : Orbit.t) : List.length (samples kepler_E o) = num.
Proof.
  unfold samples.
  rewrite length_combine, length_time_span, length_propagated_positions.
  apply Nat.min_id.
Qed.

(** C6. Each script's figure has one animation frame per sample, 100 of
    them; frame [i] holds the satellite marker at the i-th sampled position,
    and the orbit path trace and the central-body marker are the same trace
    in every frame.  For the callback: from the module's globals, at every
    positive semi-major axis and all marker sizes. *)
Theorem one_frame_per_sample (sma : R) (earth_size satellite_size : Z) :
  0 < sma ->
  (exists (o : Orbit.t) (fig : go.Figure),
      simulator.orbit = Ok o /\
      simulator.fig kepler_E = Ok fig /\
      List.length (go.frames fig) = List.length (samples kepler_E o) /\
      frames_follow (propagated_positions kepler_E o) fig) /\
  (exists (o : Orbit.t) (fig : go.Figure),
      fst (dash_simulation.update_orbit_orbit sma
             dash_simulation.module_globals) = Ok o /\
      fst (dash_simulation.update_orbit kepler_E sma earth_size satellite_size
             dash_simulation.module_globals) = Ok fig /\
      List.length (go.frames fig) = List.length (samples kepler_E o) /\
      frames_follow (propagated_positions kepler_E o) fig).
Proof.
  intros _. split.
  - eexists. eexists.
    split; [apply simulator_orbit_Ok|].
    split; [apply simulator_fig_Ok|].
    split.
    + cbn [go.frames]. unfold range.
      now rewrite length_map, length_seq, length_samples.
    + apply frames_follow_map.
      * apply length_propagated_positions.
      * repeat split.
      * repeat split.
      * intros i pos Hpos.
        unfold marker_at, simulator.satellite_trace.
        cbn [go.x go.y go.z go.mode].
        rewrite !(nth_column _ _ _ _ Hpos). repeat split.
  - eexists. eexists.
    split; [rewrite update_orbit_orbit_eq; reflexivity|].
    split.
    { erewrite update_orbit_Ok;
        [reflexivity | rewrite update_orbit_orbit_eq; reflexivity]. }
    split.
    + cbn [go.frames]. unfold range.
      now rewrite length_map, length_seq, length_samples.
    + apply frames_follow_map.
      * apply length_propagated_positions.
      * repeat split.
      * repeat split.
      * intros i pos Hpos.
        unfold marker_at. cbn [go.x go.y go.z go.mode].
        rewrite !(nth_column _ _ _ _ Hpos). repeat split.
Qed.

Lemma nth_error_samples_0 (o : Orbit.t) :
  nth_error (samples kepler_E o) 0 = Some (0, Orbit.r (propagate kepler_E o 0)).
Proof.
  rewrite nth_error_samples by (unfold num; lia).
  rewrite nth_time_span by (unfold num; lia).
  replace (INR 0 * (Orbit.period o / INR (num - 1))) with 0 by (simpl; ring).
  reflexivity.
Qed.

(** C10. In both scripts the figure as first rendered holds the satellite
    marker, its third trace, exactly at the first sampled position, the one
    sampled at time offset 0.  For the callback: from the module's globals,
    at every positive semi-major axis and all marker sizes. *)
Theorem initial_satellite_marker_on_first_sample
    (sma : R) (earth_size satellite_size : Z) :
  0 < sma ->
  (exists (o : Orbit.t) (fig : go.Figure),
      simulator.orbit = Ok o /\
      simulator.fig kepler_E = Ok fig /\
      initial_marker_on_first_sample (samples kepler_E o) fig) /\
  (exists (o : Orbit.t) (fig : go.Figure),
      fst (dash_simulation.update_orbit_orbit sma
             dash_simulation.module_globals) = Ok o /\
      fst (dash_simulation.update_orbit kepler_E sma earth_size satellite_size
             dash_simulation.module_globals) = Ok fig /\
      initial_marker_on_first_sample (samples kepler_E o) fig).
Proof.
  intros _. split.
  - eexists. eexists.
    split; [apply simulator_orbit_Ok|].
    split; [apply simulator_fig_Ok|].
    unfold initial_marker_on_first_sample. cbn [go.data].
    do 4 eexists.
    split; [apply nth_error_samples_0|].
    split; [reflexivity|]. split; [reflexivity|].
    unfold marker_at, simulator.satellite_trace. cbn [go.x go.y go.z go.mode].
    rewrite !(nth_column _ _ _ _ (nth_error_propagated_positions_0 _)).
    repeat split.
  - eexists. eexists.
    split; [rewrite update_orbit_orbit_eq; reflexivity|].
    split.
    { erewrite update_orbit_Ok;
        [reflexivity | rewrite update_orbit_orbit_eq; reflexivity]. }
    unfold initial_marker_on_first_sample. cbn [go.data].
    do 4 eexists.
    split; [apply nth_error_samples_0|].
    split; [reflexivity|]. split; [reflexivity|].
    unfold marker_at. cbn [go.x go.y go.z go.mode].
    rewrite !(nth_column _ _ _ _ (nth_error_propagated_positions_0 _)).
    repeat split.
Qed.

(** C5. Two invocations of the callback with the same positive semi-major
    axis and any two pairs of marker sizes carry the same sampled
    coordinates and the same frames (or, should the globals make the
    constructor raise, the same exception); from the module's globals both
    return a figure whose coordinates are the columns of the positions
    sampled over the period of the one orbit built from the semi-major
    axis. *)
Theorem display_state_does_not_affect_trajectory
    (sma : R) (earth_size satellite_size earth_size' satellite_size' : Z) :
  0 < sma ->
  (forall g : dash_simulation.Globals,
      let out :=
        fst (dash_simulation.update_orbit kepler_E sma earth_size
               satellite_size g) in
      let out' :=
        fst (dash_simulation.update_orbit kepler_E sma earth_size'
               satellite_size' g) in
      bind out trajectory_of = bind out' trajectory_of /\
      bind out (fun fig => Ok (go.frames fig)) =
        bind out' (fun fig => Ok (go.frames fig))) /\
  (exists (o : Orbit.t) (fig fig' : go.Figure),
      fst (dash_simulation.update_orbit_orbit sma
             dash_simulation.module_globals) = Ok o /\
      fst (dash_simulation.update_orbit kepler_E sma earth_size satellite_size
             dash_simulation.module_globals) = Ok fig /\
      fst (dash_simulation.update_orbit kepler_E sma earth_size' satellite_size'
             dash_simulation.module_globals) = Ok fig' /\
      trajectory_of fig = Ok (xs o, ys o, zs o) /\
      trajectory_of fig' = Ok (xs o, ys o, zs o) /\
      go.frames fig = go.frames fig' /\
      propagated_positions kepler_E o =
        map (fun t => Orbit.r (propagate kepler_E o t))
          (linspace 0 (Orbit.period o) num)).
Proof.
  intros _. split.
  - intros g. cbv zeta.
    destruct (fst (dash_simulation.update_orbit_orbit sma g)) as [o|e] eqn:Ho.
    + rewrite !(update_orbit_Ok _ _ _ _ _ Ho). split; reflexivity.
    + rewrite !(update_orbit_Raise _ _ _ _ _ Ho). split; reflexivity.
  - assert (Ho : fst (dash_simulation.update_orbit_orbit sma
                        dash_simulation.module_globals) =
                 Ok (Orbit.mk Earth sma 0.1 45 0 0 0))
      by (rewrite update_orbit_orbit_eq; reflexivity).
    exists (Orbit.mk Earth sma 0.1 45 0 0 0).
    eexists. eexists.
    split; [exact Ho|].
    split; [rewrite (update_orbit_Ok _ _ _ _ _ Ho); reflexivity|].
    split; [rewrite (update_orbit_Ok _ _ _ _ _ Ho); reflexivity|].
    repeat split.
Qed.

(** C9. Whatever the sliders send and whatever invocations came before, the
    callback builds its orbit (line 97) around Earth with eccentricity 0.1,
    inclination 45 degrees and RAAN, argument of perigee and true anomaly 0;
    only the semi-major axis is the slider's value.  That orbit is the one
    the callback samples: any figure it returns carries the positions
    sampled on it, in the path, in the frames and under the initial marker,
    and for a positive semi-major axis it does return a figure. *)
Theorem update_orbit_elements_fixed
    (events : list (R * Z * Z)) (sma : R) (earth_size satellite_size : Z) :
  let g := snd (dash_simulation.run_callbacks kepler_E events
                  dash_simulation.module_globals) in
  exists o : Orbit.t,
    dash_simulation.update_orbit_orbit sma g = (Ok o, g) /\
    Orbit.from_classical Earth sma 0.1 45 0 0 0 = Ok o /\
    Orbit.attractor o = Earth /\
    Orbit.a o = sma /\
    Orbit.ecc o = 0.1 /\
    Orbit.inc o = 45 /\
    Orbit.raan o = 0 /\
    Orbit.argp o = 0 /\
    Orbit.nu o = 0 /\
    (forall fig : go.Figure,
        fst (dash_simulation.update_orbit kepler_E sma earth_size
               satellite_size g) = Ok fig ->
        trajectory_of fig = Ok (xs o, ys o, zs o) /\
        frames_follow (propagated_positions kepler_E o) fig /\
        initial_marker_on_first_sample (samples kepler_E o) fig) /\
    (0 < sma ->
     exists fig : go.Figure,
       fst (dash_simulation.update_orbit kepler_E sma earth_size
              satellite_size g) = Ok fig).
Proof.
  cbv zeta. rewrite run_callbacks_globals.
  assert (Ho : fst (dash_simulation.update_orbit_orbit sma
                      dash_simulation.module_globals) =
               Ok (Orbit.mk Earth sma 0.1 45 0 0 0))
    by (rewrite update_orbit_orbit_eq; reflexivity).
  exists (Orbit.mk Earth sma 0.1 45 0 0 0).
  split; [apply update_orbit_orbit_eq|].
  split.
  { rewrite from_classical_elliptic by lra. now rewrite wrap_nu_0. }
  do 7 (split; [reflexivity|]).
  rewrite (update_orbit_Ok _ _ _ _ _ Ho). cbn [fst].
  split; [|intros _; eexists; reflexivity].
  intros fig Hfig. apply Ok_inj in Hfig. subst fig.
  split; [reflexivity|]. split.
  - apply frames_follow_map.
    + apply length_propagated_positions.
    + repeat split.
    + repeat split.
    + intros i pos Hpos.
      unfold marker_at. cbn [go.x go.y go.z go.mode].
      rewrite !(nth_column _ _ _ _ Hpos). repeat split.
  - unfold initial_marker_on_first_sample. cbn [go.data].
    do 4 eexists.
    split; [apply nth_error_samples_0|].
    split; [reflexivity|]. split; [reflexivity|].
    unfold marker_at. cbn [go.x go.y go.z go.mode].
    rewrite !(nth_column _ _ _ _ (nth_error_propagated_positions_0 _)).
    repeat split.
Qed.


End FigureProperties.

(** ** Concrete instances *)

(** The default orbit of the callback, 7078 km around Earth, satisfies the
    hypotheses of C1; the solver here returns the mean anomaly. *)
Lemma samples_evenly_spaced_default_orbit :
  physical Earth /\ valid_elements Earth 7078 0.1 /\ 0 <= 45 <= 180 /\
  exists o : Orbit.t,
    Orbit.from_classical Earth 7078 0.1 45 0 0 0 = Ok o /\
    let ts := time_span o in
    let period := Orbit.period o in
    List.length (samples (fun M _ => M) o) = num /\
    map fst (samples (fun M _ => M) o) = ts /\
    (forall i, (i < num)%nat ->
       nth_error (samples (fun M _ => M) o) i =
         Some (nth i ts 0,
               Orbit.r (propagate (fun M _ => M) o (nth i ts 0)))) /\
    nth 0 ts 0 = 0 /\
    last ts 0 = period /\
    (forall i, (S i < num)%nat ->
       nth (S i) ts 0 - nth i ts 0 = period / INR (num - 1)) /\
    (forall i j, (i < j)%nat -> (j < num)%nat -> nth i ts 0 < nth j ts 0) /\
    (forall t, In t ts -> 0 <= t <= period).
Proof.
  assert (Hv : valid_elements Earth 7078 0.1)
    by (unfold valid_elements; simpl; lra).
  assert (Hi : 0 <= 45 <= 180) by lra.
  split; [exact Earth_physical|]. split; [exact Hv|]. split; [exact Hi|].
  exact (samples_evenly_spaced_over_one_period (fun M _ => M)
           Earth 7078 0.1 45 0 0 0 Earth_physical Hv Hi).
Defined.

(** The hypotheses of C3 at the default orbit. *)
Lemma period_is_keplers_third_law_default_orbit :
  valid_elements Earth 7078 0.1 /\ 0 <= 45 <= 180 /\
  exists o : Orbit.t,
    Orbit.from_classical Earth 7078 0.1 45 0 0 0 = Ok o /\
    Orbit.period o = 2 * PI * sqrt (7078 ^ 3 / body_k Earth) /\
    time_span o = linspace 0 (2 * PI * sqrt (7078 ^ 3 / body_k Earth)) num /\
    last (time_span o) 0 = 2 * PI * sqrt (7078 ^ 3 / body_k Earth).
Proof.
  assert (Hv : valid_elements Earth 7078 0.1)
    by (unfold valid_elements; simpl; lra).
  assert (Hi : 0 <= 45 <= 180) by lra.
  split; [exact Hv|]. split; [exact Hi|].
  exact (period_is_keplers_third_law Earth 7078 0.1 45 0 0 0 Hv Hi).
Defined.

(** The hypotheses of C7 at a circular orbit of 7078 km. *)
Lemma circular_positions_default_axis :
  physical Earth /\ valid_elements Earth 7078 0 /\ 0 <= 45 <= 180 /\
  exists o : Orbit.t,
    Orbit.from_classical Earth 7078 0 45 0 0 0 = Ok o /\
    List.length (propagated_positions (fun M _ => M) o) = num /\
    forall pos, In pos (propagated_positions (fun M _ => M) o) ->
                norm pos = 7078.
Proof.
  assert (Hv : valid_elements Earth 7078 0)
    by (unfold valid_elements; simpl; lra).
  assert (Hi : 0 <= 45 <= 180) by lra.
  split; [exact Earth_physical|]. split; [exact Hv|]. split; [exact Hi|].
  exact (circular_positions_at_semi_major_axis (fun M _ => M)
           Earth 7078 45 0 0 0 Earth_physical Hv Hi).
Defined.

(** The hypotheses of C8 at the default orbit: 7078 km against 14156 km. *)
Lemma doubling_axis_default_orbit :
  physical Earth /\ valid_elements Earth 7078 0.1 /\ 0 <= 45 <= 180 /\
  exists o o2 : Orbit.t,
    Orbit.from_classical Earth 7078 0.1 45 0 0 0 = Ok o /\
    Orbit.from_classical Earth (2 * 7078) 0.1 45 0 0 0 = Ok o2 /\
    Orbit.period o2 = Rpower 2 (3 / 2) * Orbit.period o /\
    last (time_span o2) 0 = Rpower 2 (3 / 2) * last (time_span o) 0.
Proof.
  assert (Hv : valid_elements Earth 7078 0.1)
    by (unfold valid_elements; simpl; lra).
  assert (Hi : 0 <= 45 <= 180) by lra.
  split; [exact Earth_physical|]. split; [exact Hv|]. split; [exact Hi|].
  exact (doubling_axis_scales_period Earth 7078 0.1 45 0 0 0
           Earth_physical Hv Hi).
Defined.

(** The hypothesis of C6 at the callback's defaults: 7078 km, Earth size 15,
    satellite size 6. *)
Lemma one_frame_per_sample_defaults :
  0 < 7078 /\
  (exists (o : Orbit.t) (fig : go.Figure),
      simulator.orbit = Ok o /\
      simulator.fig (fun M _ => M) = Ok fig /\
      List.length (go.frames fig) = List.length (samples (fun M _ => M) o) /\
      frames_follow (propagated_positions (fun M _ => M) o) fig) /\
  (exists (o : Orbit.t) (fig : go.Figure),
      fst (dash_simulation.update_orbit_orbit 7078
             dash_simulation.module_globals) = Ok o /\
      fst (dash_simulation.update_orbit (fun M _ => M) 7078 15 6
             dash_simulation.module_globals) = Ok fig /\
      List.length (go.frames fig) = List.length (samples (fun M _ => M) o) /\
      frames_follow (propagated_positions (fun M _ => M) o) fig).
Proof.
  assert (Hsma : 0 < 7078) by lra.
  split; [exact Hsma|].
  exact (one_frame_per_sample (fun M _ => M) 7078 15 6 Hsma).
Defined.

(** The hypothesis of C10 at the callback's defaults. *)
Lemma initial_satellite_marker_defaults :
  0 < 7078 /\
  (exists (o : Orbit.t) (fig : go.Figure),
      simulator.orbit = Ok o /\
      simulator.fig (fun M _ => M) = Ok fig /\
      initial_marker_on_first_sample (samples (fun M _ => M) o) fig) /\
  (exists (o : Orbit.t) (fig : go.Figure),
      fst (dash_simulation.update_orbit_orbit 7078
             dash_simulation.module_globals) = Ok o /\
      fst (dash_simulation.update_orbit (fun M _ => M) 7078 15 6
             dash_simulation.module_globals) = Ok fig /\
      initial_marker_on_first_sample (samples (fun M _ => M) o) fig).
Proof.
  assert (Hsma : 0 < 7078) by lra.
  split; [exact Hsma|].
  exact (initial_satellite_marker_on_first_sample (fun M _ => M) 7078 15 6 Hsma).
Defined.

(** The hypothesis of C5 at 7078 km, with the default sizes (15, 6) against
    the largest ones (30, 12). *)
Lemma display_state_defaults_against_largest :
  0 < 7078 /\
  (forall g : dash_simulation.Globals,
      let out :=
        fst (dash_simulation.update_orbit (fun M _ => M) 7078 15 6 g) in
      let out' :=
        fst (dash_simulation.update_orbit (fun M _ => M) 7078 30 12 g) in
      bind out trajectory_of = bind out' trajectory_of /\
      bind out (fun fig => Ok (go.frames fig)) =
        bind out' (fun fig => Ok (go.frames fig))) /\
  (exists (o : Orbit.t) (fig fig' : go.Figure),
      fst (dash_simulation.update_orbit_orbit 7078
             dash_simulation.module_globals) = Ok o /\
      fst (dash_simulation.update_orbit (fun M _ => M) 7078 15 6
             dash_simulation.module_globals) = Ok fig /\
      fst (dash_simulation.update_orbit (fun M _ => M) 7078 30 12
             dash_simulation.module_globals) = Ok fig' /\
      trajectory_of fig =
        Ok (map (fun pos : vec3 => fst (fst pos))
              (propagated_positions (fun M _ => M) o),
            map (fun pos : vec3 => snd (fst pos))
              (propagated_positions (fun M _ => M) o),
            map (fun pos : vec3 => snd pos)
              (propagated_positions (fun M _ => M) o)) /\
      trajectory_of fig' =
        Ok (map (fun pos : vec3 => fst (fst pos))
              (propagated_positions (fun M _ => M) o),
            map (fun pos : vec3 => snd (fst pos))
              (propagated_positions (fun M _ => M) o),
            map (fun pos : vec3 => snd pos)
              (propagated_positions (fun M _ => M) o)) /\
      go.frames fig = go.frames fig' /\
      propagated_positions (fun M _ => M) o =
        map (fun t => Orbit.r (propagate (fun M _ => M) o t))
          (linspace 0 (Orbit.period o) num)).
Proof.
  assert (Hsma : 0 < 7078) by lra.
  split; [exact Hsma|].
  exact (display_state_does_not_affect_trajectory (fun M _ => M)
           7078 15 6 30 12 Hsma).
Defined.


(** The hypothesis of C9 at the callback's defaults, before any other
    invocation: a figure is returned and its path is sampled on the orbit
    with the fixed elements. *)
Lemma update_orbit_elements_defaults :
  0 < 7078 /\
  exists (o : Orbit.t) (fig : go.Figure),
    Orbit.from_classical Earth 7078 0.1 45 0 0 0 = Ok o /\
    fst (dash_simulation.update_orbit (fun M _ => M) 7078 15 6
           dash_simulation.module_globals) = Ok fig /\
    frames_follow (propagated_positions (fun M _ => M) o) fig.
Proof.
  assert (Hsma : 0 < 7078) by lra.
  split; [exact Hsma|].
  destruct (update_orbit_elements_fixed (fun M _ => M) [] 7078 15 6)
    as [o [_ [Ho [_ [_ [_ [_ [_ [_ [_ [Hfig Hex]]]]]]]]]]].
  destruct (Hex Hsma) as [fig Hret].
  exists o, fig. split; [exact Ho|]. split; [exact Hret|].
  exact (proj1 (proj2 (Hfig fig Hret))).
Defined.


(** * Further properties of the scripts *)

(** ** Unpacking the coordinate columns *)

(** X1. Unpacking the zipped rows into three names raises exactly when
    there is no row; otherwise the three columns are as long as the rows
    and zip back to them. *)
Theorem zip_star_columns (rows : list vec3) :
  match zip_star rows with
  | Raise e =>
      rows = [] /\
      e = ValueError "not enough values to unpack (expected 3, got 0)"
  | Ok (x_vals, y_vals, z_vals) =>
      rows <> [] /\
      List.length x_vals = List.length rows /\
      List.length y_vals = List.length rows /\
      List.length z_vals = List.length rows /\
      combine (combine x_vals y_vals) z_vals = rows
  end.
Proof.
  destruct rows as [|row rows]; [split; reflexivity|].
  rewrite zip_star_Ok by discriminate.
  split; [discriminate|].
  rewrite !length_map. repeat split.
  induction (row :: rows) as [|[[p0 p1] p2] l IH]; [reflexivity|].
  simpl. now rewrite IH.
Qed.

(** ** The structure of the figures *)

Lemma nth_error_map_range_inv {B : Type} (g : nat -> B) (n i : nat) (b : B) :
  nth_error (map g (range n)) i = Some b -> (i < n)%nat /\ b = g i.
Proof.
  intros H.
  assert (Hi : (i < n)%nat).
  { assert (Hlt : (i < List.length (map g (range n)))%nat)
      by (apply nth_error_Some; rewrite H; discriminate).
    unfold range in Hlt. now rewrite length_map, length_seq in Hlt. }
  split; [exact Hi|].
  rewrite nth_error_map_range in H by exact Hi. now inversion H.
Qed.

Section FigureStructure.

Variable kepler_E : R -> R -> R.

Local Open Scope string_scope.

Local Abbreviation xs o :=
  (map (fun pos : vec3 => fst (fst pos)) (propagated_positions kepler_E o)).
Local Abbreviation ys o :=
  (map (fun pos : vec3 => snd (fst pos)) (propagated_positions kepler_E o)).
Local Abbreviation zs o :=
  (map (fun pos : vec3 => snd pos) (propagated_positions kepler_E o)).

Lemma length_column (f : vec3 -> R) (o : Orbit.t) :
  List.length (map f (propagated_positions kepler_E o)) = num.
Proof. now rewrite length_map, length_propagated_positions. Qed.

(** X2. In the figure of either script every trace, in the initial data
    and in every frame, has coordinate lists of one length: 100 points for
    the orbit path, one point for the central body and one for the
    satellite.  For the callback: from the module's globals, at every
    positive semi-major axis. *)
Theorem figure_traces_have_matching_lengths
    (sma : R) (earth_size satellite_size : Z) :
  0 < sma ->
  let shaped (traces : list go.Scatter3d) :=
    exists path body sat : go.Scatter3d,
      traces = [path; body; sat] /\
      trace_points num path /\ trace_points 1 body /\ trace_points 1 sat in
  (exists fig : go.Figure,
      simulator.fig kepler_E = Ok fig /\
      shaped (go.data fig) /\
      forall fr, In fr (go.frames fig) -> shaped (go.frame_data fr)) /\
  (exists fig : go.Figure,
      fst (dash_simulation.update_orbit kepler_E sma earth_size satellite_size
             dash_simulation.module_globals) = Ok fig /\
      shaped (go.data fig) /\
      forall fr, In fr (go.frames fig) -> shaped (go.frame_data fr)).
Proof.
  intros _. cbv zeta. split.
  - eexists. split; [apply simulator_fig_Ok|].
    cbn [go.data go.frames]. split.
    + do 3 eexists. split; [reflexivity|].
      unfold trace_points, simulator.orbit_trace.
      cbn [go.x go.y go.z]. rewrite !length_column. repeat split.
    + intros fr Hin. apply in_map_iff in Hin. destruct Hin as [i [Hfr _]].
      subst fr. cbn [go.frame_data].
      do 3 eexists. split; [reflexivity|].
      unfold trace_points, simulator.orbit_trace.
      cbn [go.x go.y go.z]. rewrite !length_column. repeat split.
  - eexists. split.
    { erewrite update_orbit_Ok;
        [reflexivity | rewrite update_orbit_orbit_eq; reflexivity]. }
    cbn [go.data go.frames]. split.
    + do 3 eexists. split; [reflexivity|].
      unfold trace_points. cbn [go.x go.y go.z].
      rewrite !length_column. repeat split.
    + intros fr Hin. apply in_map_iff in Hin. destruct Hin as [i [Hfr _]].
      subst fr. cbn [go.frame_data].
      do 3 eexists. split; [reflexivity|].
      unfold trace_points. cbn [go.x go.y go.z].
      rewrite !length_column. repeat split.
Qed.

(** X3. Where the marker sizes sit.  In the callback's figure the
    Earth-size argument is the marker size of the trace named Earth and the
    satellite-size argument that of the trace named Satellite, and no trace
    of any frame carries a marker, a line or a name, so the frames hold no
    size.  In simulator.py the initial traces carry the sizes 15 and 6 and
    every frame repeats the line and the markers of the initial traces,
    without the names. *)
Theorem marker_sizes_in_traces_and_frames
    (sma : R) (earth_size satellite_size : Z) :
  0 < sma ->
  (exists (fig : go.Figure) (path body sat : go.Scatter3d),
      fst (dash_simulation.update_orbit kepler_E sma earth_size satellite_size
             dash_simulation.module_globals) = Ok fig /\
      go.data fig = [path; body; sat] /\
      go.name path = Some "Orbit Path" /\
      go.marker path = None /\
      go.line path = Some (go.mkLine 2 "red") /\
      go.name body = Some "Earth" /\
      go.marker body = Some (go.mkMarker earth_size "blue") /\
      go.name sat = Some "Satellite" /\
      go.marker sat = Some (go.mkMarker satellite_size "green") /\
      forall fr tr, In fr (go.frames fig) -> In tr (go.frame_data fr) ->
                    unstyled tr) /\
  (exists (fig : go.Figure) (path body sat : go.Scatter3d),
      simulator.fig kepler_E = Ok fig /\
      go.data fig = [path; body; sat] /\
      go.name path = Some "Orbit Path" /\
      go.marker path = None /\
      go.line path = Some (go.mkLine 2 "red") /\
      go.name body = Some "Earth" /\
      go.marker body = Some (go.mkMarker 15 "blue") /\
      go.name sat = Some "Satellite" /\
      go.marker sat = Some (go.mkMarker 6 "green") /\
      forall fr, In fr (go.frames fig) ->
        exists p b s : go.Scatter3d,
          go.frame_data fr = [p; b; s] /\
          go.line p = go.line path /\
          go.marker b = go.marker body /\
          go.marker s = go.marker sat /\
          go.name p = None /\ go.name b = None /\ go.name s = None).
Proof.
  intros _. split.
  - do 4 eexists. split.
    { erewrite update_orbit_Ok;
        [reflexivity | rewrite update_orbit_orbit_eq; reflexivity]. }
    cbn [go.data go.frames].
    split; [reflexivity|].
    do 7 (split; [reflexivity|]).
    intros fr tr Hfr Htr. apply in_map_iff in Hfr.
    destruct Hfr as [i [Hfr _]]. subst fr. cbn [go.frame_data] in Htr.
    destruct Htr as [H | [H | [H | []]]]; subst tr; repeat split.
  - do 4 eexists. split; [apply simulator_fig_Ok|].
    cbn [go.data go.frames].
    split; [reflexivity|]. do 7 (split; [reflexivity|]).
    intros fr Hfr. apply in_map_iff in Hfr.
    destruct Hfr as [i [Hfr _]]. subst fr. cbn [go.frame_data].
    do 3 eexists. split; [reflexivity|]. repeat split.
Qed.

(** X4. The animation starts where the static figure stands: in either
    script the first frame exists and its satellite marker has the
    coordinates of the satellite marker of the initial data.  For the
    callback: from the module's globals, at every positive semi-major
    axis. *)
Theorem first_frame_matches_initial_marker
    (sma : R) (earth_size satellite_size : Z) :
  0 < sma ->
  let starts_at_marker (fig : go.Figure) :=
    exists (path body sat : go.Scatter3d) (fr : go.Frame)
           (path0 body0 sat0 : go.Scatter3d),
      go.data fig = [path; body; sat] /\
      nth_error (go.frames fig) 0 = Some fr /\
      go.frame_data fr = [path0; body0; sat0] /\
      go.x sat0 = go.x sat /\ go.y sat0 = go.y sat /\ go.z sat0 = go.z sat /\
      go.x path0 = go.x path /\ go.y path0 = go.y path /\
      go.z path0 = go.z path in
  (exists fig : go.Figure,
      simulator.fig kepler_E = Ok fig /\ starts_at_marker fig) /\
  (exists fig : go.Figure,
      fst (dash_simulation.update_orbit kepler_E sma earth_size satellite_size
             dash_simulation.module_globals) = Ok fig /\
      starts_at_marker fig).
Proof.
  intros _. cbv zeta. split.
  - eexists. split; [apply simulator_fig_Ok|].
    cbn [go.data go.frames]. do 7 eexists.
    split; [reflexivity|].
    split; [apply nth_error_map_range; unfold num; lia|].
    cbn [go.frame_data]. split; [reflexivity|]. repeat split.
  - eexists. split.
    { erewrite update_orbit_Ok;
        [reflexivity | rewrite update_orbit_orbit_eq; reflexivity]. }
    cbn [go.data go.frames]. do 7 eexists.
    split; [reflexivity|].
    split; [apply nth_error_map_range; unfold num; lia|].
    cbn [go.frame_data]. split; [reflexivity|]. repeat split.
Qed.

Lemma getitem_Raise {A : Type} (l : list A) (i : nat) :
  (List.length l <= i)%nat ->
  getitem l i = Raise (IndexError "tuple index out of range").
Proof.
  intros Hi. unfold getitem.
  now rewrite (proj2 (nth_error_None l i) Hi).
Qed.

Lemma mapM_all_Ok {A B : Type} (f : A -> Result B) (l : list A) :
  (forall v, In v l -> exists b, f v = Ok b) ->
  exists bs, mapM f l = Ok bs /\ List.length bs = List.length l.
Proof.
  induction l as [|v l IH]; intros Hf; simpl.
  - exists []. split; reflexivity.
  - destruct (Hf v (or_introl eq_refl)) as [b Hb]. rewrite Hb.
    destruct IH as [bs [Hbs Hlen]];
      [intros w Hw; apply Hf; right; exact Hw|].
    rewrite Hbs. exists (b :: bs). split; [reflexivity|].
    simpl. now rewrite Hlen.
Qed.

Lemma mapM_Ok_inv {A B : Type} (f : A -> Result B) (l : list A)
    (bs : list B) :
  mapM f l = Ok bs -> forall v, In v l -> exists b, f v = Ok b.
Proof.
  revert bs. induction l as [|v l IH]; intros bs H w Hw; [destruct Hw|].
  simpl in H.
  destruct (f v) as [b|e] eqn:Hv; [|discriminate H].
  destruct (mapM f l) as [bs'|e] eqn:Hl; [|discriminate H].
  destruct Hw as [Hw | Hw]; [subst w; now exists b | now apply (IH bs')].
Qed.

Lemma mapM_Raise_inv {A B : Type} (f : A -> Result B) (l : list A) (e : exn) :
  mapM f l = Raise e -> exists v, In v l /\ f v = Raise e.
Proof.
  induction l as [|v l IH]; intros H; simpl in H; [discriminate H|].
  destruct (f v) as [b|e'] eqn:Hv.
  - destruct (mapM f l) as [bs|e''] eqn:Hl; [discriminate H|].
    inversion H. subst e''.
    destruct (IH eq_refl) as [w [Hw Hfw]].
    exists w. split; [right; exact Hw | exact Hfw].
  - inversion H. subst e'. exists v. split; [left; reflexivity | exact Hv].
Qed.

(** A comprehension over [range(n)] whose element succeeds exactly below a
    bound [m], and raises [err] from there on. *)
Lemma comprehension_within_bound {B : Type} (f : nat -> Result B)
    (n m : nat) (err : exn) :
  (forall i, (i < m)%nat -> exists b, f i = Ok b) ->
  (forall i, (m <= i)%nat -> f i = Raise err) ->
  ((exists bs, mapM f (range n) = Ok bs /\ List.length bs = n) <->
   (n <= m)%nat) /\
  (~ (n <= m)%nat -> mapM f (range n) = Raise err).
Proof.
  intros Hok Herr.
  assert (Hto : forall bs, mapM f (range n) = Ok bs -> (n <= m)%nat).
  { intros bs Hbs.
    destruct (Nat.le_gt_cases n m) as [Hle | Hgt]; [exact Hle|].
    destruct (mapM_Ok_inv _ _ _ Hbs m) as [b Hb];
      [apply in_seq; lia|].
    rewrite (Herr m (Nat.le_refl m)) in Hb. discriminate Hb. }
  split; [split|].
  - intros [bs [Hbs _]]. now apply (Hto bs).
  - intros Hle.
    destruct (mapM_all_Ok f (range n)) as [bs [Hbs Hlen]].
    + intros i Hi. apply in_seq in Hi. apply Hok. lia.
    + exists bs. split; [exact Hbs|].
      unfold range in Hlen. now rewrite length_seq in Hlen.
  - intros Hnot.
    destruct (mapM f (range n)) as [bs|e] eqn:Hres.
    + elim Hnot. now apply (Hto bs).
    + destruct (mapM_Raise_inv _ _ _ Hres) as [i [_ Hi]].
      destruct (Nat.lt_ge_cases i m) as [Hlt | Hge].
      * destruct (Hok i Hlt) as [b Hb]. rewrite Hb in Hi. discriminate Hi.
      * rewrite (Herr i Hge) in Hi. inversion Hi. reflexivity.
Qed.

(** X5. The frame comprehension of either script, for any three coordinate
    tuples: it returns one frame per element of [x_vals] exactly when
    [y_vals] and [z_vals] are at least as long as [x_vals], and raises
    [IndexError] otherwise.  The tuples unpacked from any list of position
    rows are long enough and have an element 0, so neither the comprehension
    nor the initial marker's [x_vals[0]], [y_vals[0]], [z_vals[0]] raises. *)
Theorem frames_index_stays_in_range (x_vals y_vals z_vals : list R) :
  let fits :=
    (List.length x_vals <= List.length y_vals)%nat /\
    (List.length x_vals <= List.length z_vals)%nat in
  let index_error := IndexError "tuple index out of range" in
  ((exists frs, dash_simulation.frames x_vals y_vals z_vals = Ok frs /\
                List.length frs = List.length x_vals) <-> fits) /\
  ((exists frs, simulator.frames x_vals y_vals z_vals = Ok frs /\
                List.length frs = List.length x_vals) <-> fits) /\
  (~ fits ->
   dash_simulation.frames x_vals y_vals z_vals = Raise index_error /\
   simulator.frames x_vals y_vals z_vals = Raise index_error) /\
  (forall rows : list vec3,
     zip_star rows = Ok (x_vals, y_vals, z_vals) ->
     fits /\
     exists x0 y0 z0 : R,
       getitem x_vals 0 = Ok x0 /\ getitem y_vals 0 = Ok y0 /\
       getitem z_vals 0 = Ok z0 /\ nth_error rows 0 = Some (x0, y0, z0)).
Proof.
  cbv zeta.
  set (m := Nat.min (List.length x_vals)
              (Nat.min (List.length y_vals) (List.length z_vals))).
  assert (Hfits : (List.length x_vals <= m)%nat <->
                  (List.length x_vals <= List.length y_vals)%nat /\
                  (List.length x_vals <= List.length z_vals)%nat)
    by (unfold m; lia).
  assert (Hdash := comprehension_within_bound
                     (dash_simulation.frame x_vals y_vals z_vals)
                     (List.length x_vals) m
                     (IndexError "tuple index out of range")).
  assert (Hsim := comprehension_within_bound
                    (simulator.frame x_vals y_vals z_vals)
                    (List.length x_vals) m
                    (IndexError "tuple index out of range")).
  destruct Hdash as [Hdash_iff Hdash_err].
  { intros i Hi. unfold dash_simulation.frame.
    rewrite !(getitem_Ok _ i 0) by (unfold m in Hi; lia).
    eexists. reflexivity. }
  { intros i Hi. unfold dash_simulation.frame.
    destruct (Nat.lt_ge_cases i (List.length x_vals)) as [Hx | Hx];
      [rewrite (getitem_Ok _ i 0) by exact Hx
      | now rewrite getitem_Raise by exact Hx].
    destruct (Nat.lt_ge_cases i (List.length y_vals)) as [Hy | Hy];
      [rewrite (getitem_Ok _ i 0) by exact Hy
      | cbn [bind]; now rewrite getitem_Raise by exact Hy].
    cbn [bind]. rewrite getitem_Raise by (unfold m in Hi; lia).
    reflexivity. }
  destruct Hsim as [Hsim_iff Hsim_err].
  { intros i Hi. unfold simulator.frame.
    rewrite !(getitem_Ok _ i 0) by (unfold m in Hi; lia).
    eexists. reflexivity. }
  { intros i Hi. unfold simulator.frame.
    destruct (Nat.lt_ge_cases i (List.length x_vals)) as [Hx | Hx];
      [rewrite (getitem_Ok _ i 0) by exact Hx
      | now rewrite getitem_Raise by exact Hx].
    destruct (Nat.lt_ge_cases i (List.length y_vals)) as [Hy | Hy];
      [rewrite (getitem_Ok _ i 0) by exact Hy
      | cbn [bind]; now rewrite getitem_Raise by exact Hy].
    cbn [bind]. rewrite getitem_Raise by (unfold m in Hi; lia).
    reflexivity. }
  unfold dash_simulation.frames, simulator.frames.
  split; [now rewrite Hdash_iff|]. split; [now rewrite Hsim_iff|].
  split.
  - intros Hnot. rewrite <- Hfits in Hnot.
    split; [now apply Hdash_err | now apply Hsim_err].
  - intros rows Hrows.
    destruct rows as [|[[p0 p1] p2] rows]; [discriminate Hrows|].
    rewrite zip_star_Ok in Hrows by discriminate.
    apply Ok_inj in Hrows.
    injection Hrows as Hx Hy Hz. subst x_vals y_vals z_vals.
    split; [simpl; rewrite !length_map; split; apply Nat.le_refl|].
    exists p0, p1, p2. repeat split.
Qed.

(** [str] of a natural number determines the number. *)
Lemma str_of_nat_inj (i j : nat) : str_of_nat i = str_of_nat j -> i = j.
Proof.
  unfold str_of_nat. intros H.
  apply (f_equal NilEmpty.uint_of_string) in H.
  rewrite !NilEmpty.usu in H. inversion H as [Huint].
  apply (f_equal Nat.of_uint) in Huint.
  now rewrite !Unsigned.of_to in Huint.
Qed.

(** X6. The frames of a figure have pairwise distinct names, and the
    frame at index [i] is named ["Frame i"] in simulator.py and
    ["frame_i"] in the callback, with [i] in decimal.  For the callback:
    from the module's globals, at every positive semi-major axis. *)
Theorem frame_names_are_distinct
    (sma : R) (earth_size satellite_size : Z) :
  0 < sma ->
  (exists fig : go.Figure,
      simulator.fig kepler_E = Ok fig /\
      NoDup (map go.frame_name (go.frames fig)) /\
      forall i fr, nth_error (go.frames fig) i = Some fr ->
                   go.frame_name fr = "Frame " ++ str_of_nat i) /\
  (exists fig : go.Figure,
      fst (dash_simulation.update_orbit kepler_E sma earth_size satellite_size
             dash_simulation.module_globals) = Ok fig /\
      NoDup (map go.frame_name (go.frames fig)) /\
      forall i fr, nth_error (go.frames fig) i = Some fr ->
                   go.frame_name fr = "frame_" ++ str_of_nat i).
Proof.
  intros _. split.
  - eexists. split; [apply simulator_fig_Ok|].
    cbn [go.frames]. split.
    + rewrite map_map. cbn [go.frame_name].
      apply NoDup_map_NoDup_ForallPairs; [|apply seq_NoDup].
      intros i j _ _ H. simpl in H. inversion H as [Hstr].
      now apply str_of_nat_inj.
    + intros i fr Hnth.
      apply nth_error_map_range_inv in Hnth. destruct Hnth as [_ Hfr].
      now subst fr.
  - eexists. split.
    { erewrite update_orbit_Ok;
        [reflexivity | rewrite update_orbit_orbit_eq; reflexivity]. }
    cbn [go.frames]. split.
    + rewrite map_map. cbn [go.frame_name].
      apply NoDup_map_NoDup_ForallPairs; [|apply seq_NoDup].
      intros i j _ _ H. simpl in H. inversion H as [Hstr].
      now apply str_of_nat_inj.
    + intros i fr Hnth.
      apply nth_error_map_range_inv in Hnth. destruct Hnth as [_ Hfr].
      now subst fr.
Qed.

End FigureStructure.

(** ** The geometry of the sampled orbit *)

(** The tangent has period [PI], also where the cosine vanishes. *)
Lemma tan_plus_PI (x : R) : tan (x + PI) = tan x.
Proof.
  unfold tan. rewrite neg_sin, neg_cos.
  unfold Rdiv. rewrite Rinv_opp. ring.
Qed.

Lemma tan_plus_nat_PI (x : R) (k : nat) : tan (x + INR k * PI) = tan x.
Proof.
  induction k as [|k IH].
  - simpl. f_equal. ring.
  - rewrite S_INR.
    replace (x + (INR k + 1) * PI) with (x + INR k * PI + PI) by ring.
    now rewrite tan_plus_PI.
Qed.

Lemma tan_plus_Z_PI (x : R) (j : Z) : tan (x + IZR j * PI) = tan x.
Proof.
  destruct (Z_le_gt_dec 0 j) as [Hj | Hj].
  - rewrite <- (Z2Nat.id j Hj), <- INR_IZR_INZ. apply tan_plus_nat_PI.
  - assert (Hneg : (0 <= - j)%Z) by lia.
    rewrite <- (tan_plus_nat_PI (x + IZR j * PI) (Z.to_nat (- j))).
    rewrite INR_IZR_INZ, (Z2Nat.id _ Hneg), opp_IZR.
    f_equal. ring.
Qed.

(** The distance of a position on an ellipse from the focus. *)
Lemma norm_r_elliptic (o : Orbit.t) :
  0 <= Orbit.ecc o < 1 -> 0 <= Orbit.a o ->
  norm (Orbit.r o) =
    Orbit.a o * (1 - Orbit.ecc o * Orbit.ecc o) /
    (1 + Orbit.ecc o * cos (rad (Orbit.nu o))).
Proof.
  intros He Ha. rewrite norm_r. unfold Orbit.r_pqw, norm.
  set (th := rad (Orbit.nu o)).
  set (d := Orbit.a o * (1 - Orbit.ecc o * Orbit.ecc o) /
            (1 + Orbit.ecc o * cos th)).
  pose proof (sin2_cos2 th) as H. unfold Rsqr in H.
  pose proof (COS_bound th) as [Hc1 Hc2].
  assert (Hlow : 0 <= Orbit.ecc o * (cos th + 1))
    by (apply Rmult_le_pos; lra).
  assert (Hden : 0 < 1 + Orbit.ecc o * cos th) by lra.
  assert (Hd : 0 <= d).
  { unfold d. apply Rmult_le_pos.
    - apply Rmult_le_pos; [lra|].
      assert (Orbit.ecc o * Orbit.ecc o <= 1 * 1)
        by (apply Rmult_le_compat; lra).
      lra.
    - left. now apply Rinv_0_lt_compat. }
  replace (d * cos th * (d * cos th) + d * sin th * (d * sin th) + 0 * 0)
    with (d * d * (sin th * sin th + cos th * cos th)) by ring.
  rewrite H, Rmult_1_r. now apply sqrt_square.
Qed.

(** One period advances the mean anomaly by a full turn. *)
Lemma mean_motion_times_period (o : Orbit.t) :
  0 < body_k (Orbit.attractor o) -> 0 < Orbit.a o ->
  Orbit.n o * Orbit.period o = 2 * PI.
Proof.
  intros Hk Ha. unfold Orbit.n, Orbit.period.
  assert (Ha3 : 0 < Orbit.a o ^ 3) by (apply pow_lt; exact Ha).
  replace (sqrt (body_k (Orbit.attractor o) / Orbit.a o ^ 3) *
           (2 * PI * sqrt (Orbit.a o ^ 3 / body_k (Orbit.attractor o))))
    with (2 * PI *
          (sqrt (body_k (Orbit.attractor o) / Orbit.a o ^ 3) *
           sqrt (Orbit.a o ^ 3 / body_k (Orbit.attractor o)))) by ring.
  rewrite <- sqrt_mult_alt by (left; apply Rdiv_lt_0_compat; assumption).
  replace (body_k (Orbit.attractor o) / Orbit.a o ^ 3 *
           (Orbit.a o ^ 3 / body_k (Orbit.attractor o))) with 1
    by (field; split; lra).
  rewrite sqrt_1. ring.
Qed.

Section OrbitGeometry.

Variable kepler_E : R -> R -> R.

Lemma nth_error_propagated_positions (o : Orbit.t) (i : nat) :
  (i < num)%nat ->
  nth_error (propagated_positions kepler_E o) i =
    Some (Orbit.r (propagate kepler_E o (nth i (time_span o) 0))).
Proof.
  intros Hi. unfold propagated_positions.
  rewrite nth_error_map.
  rewrite (nth_error_nth' _ 0) by (rewrite length_time_span; exact Hi).
  reflexivity.
Qed.

(** X7. For valid elliptic elements every sampled position lies between
    the perigee distance [a (1 - e)] and the apogee distance [a (1 + e)],
    whatever the Kepler solver returns. *)
Theorem sampled_positions_between_perigee_and_apogee
    (body : Body) (a ecc inc raan argp nu : R) :
  physical body -> valid_elements body a ecc -> 0 <= inc <= 180 ->
  exists o : Orbit.t,
    Orbit.from_classical body a ecc inc raan argp nu = Ok o /\
    forall pos, In pos (propagated_positions kepler_E o) ->
                a * (1 - ecc) <= norm pos <= a * (1 + ecc).
Proof.
  intros [Hk HR] [Ha He] Hi.
  eexists. split; [apply from_classical_elliptic; assumption|].
  intros pos Hin. unfold propagated_positions in Hin.
  apply in_map_iff in Hin. destruct Hin as [t [Hpos _]]. subst pos.
  rewrite norm_r_elliptic by (simpl; lra). simpl.
  set (c := cos _).
  assert (Hc : -1 <= c <= 1) by apply COS_bound.
  assert (Hlow : 0 <= ecc * (c + 1)) by (apply Rmult_le_pos; lra).
  assert (Hupp : 0 <= ecc * (1 - c)) by (apply Rmult_le_pos; lra).
  assert (Hden : 0 < 1 + ecc * c) by lra.
  assert (Ha0 : 0 < a) by lra.
  set (d := a * (1 - ecc * ecc) / (1 + ecc * c)).
  assert (Hd : d * (1 + ecc * c) = a * (1 - ecc * ecc))
    by (unfold d; field; lra).
  split.
  - apply Rmult_le_reg_r with (1 + ecc * c); [exact Hden|].
    rewrite Hd.
    replace (a * (1 - ecc * ecc)) with (a * (1 - ecc) * (1 + ecc)) by ring.
    apply Rmult_le_compat_l; [apply Rmult_le_pos; lra | lra].
  - apply Rmult_le_reg_r with (1 + ecc * c); [exact Hden|].
    rewrite Hd.
    replace (a * (1 - ecc * ecc)) with (a * (1 + ecc) * (1 - ecc)) by ring.
    apply Rmult_le_compat_l; [apply Rmult_le_pos; lra | lra].
Qed.

(** X8. The sampled path closes: when the solver's answers for two mean
    anomalies one turn apart differ by whole turns, the last sampled
    position, at time offset one period, is the first one, at offset 0. *)
Theorem last_sample_closes_the_loop
    (body : Body) (a ecc inc raan argp nu : R) :
  physical body -> valid_elements body a ecc -> 0 <= inc <= 180 ->
  (forall M : R, exists j : Z,
      kepler_E (M + 2 * PI) ecc = kepler_E M ecc + 2 * PI * IZR j) ->
  exists (o : Orbit.t) (pos : vec3),
    Orbit.from_classical body a ecc inc raan argp nu = Ok o /\
    nth_error (propagated_positions kepler_E o) 0 = Some pos /\
    nth_error (propagated_positions kepler_E o) (num - 1) = Some pos.
Proof.
  intros [Hk HR] [Ha He] Hi Hturn.
  pose (o := Orbit.mk body a ecc inc raan argp (Orbit.wrap_nu nu)).
  exists o, (Orbit.r (propagate kepler_E o 0)).
  split; [apply from_classical_elliptic; assumption|].
  rewrite !nth_error_propagated_positions by (unfold num; lia).
  rewrite !nth_time_span by (unfold num; lia).
  replace (INR 0 * (Orbit.period o / INR (num - 1))) with 0 by (simpl; ring).
  replace (INR (num - 1) * (Orbit.period o / INR (num - 1)))
    with (Orbit.period o)
    by (field; apply not_0_INR; unfold num; lia).
  split; [reflexivity|].
  do 2 f_equal. unfold propagate. f_equal.
  rewrite mean_motion_times_period by (simpl; lra).
  rewrite Rmult_0_r, Rplus_0_r.
  set (M0 := Orbit.E_to_M _ _).
  change (Orbit.ecc o) with ecc.
  destruct (Hturn M0) as [j Hj]. rewrite Hj.
  unfold Orbit.E_to_nu.
  replace ((kepler_E M0 ecc + 2 * PI * IZR j) / 2)
    with (kepler_E M0 ecc / 2 + IZR j * PI) by field.
  now rewrite tan_plus_Z_PI.
Qed.

End OrbitGeometry.

(** ** The size buttons of simulator.py *)

Lemma earth_size_buttons_Ok :
  simulator.earth_size_buttons =
    Ok (map simulator.earth_size_button [5; 10; 15; 20; 25; 30]%Z).
Proof. reflexivity. Qed.

Lemma satellite_size_buttons_Ok :
  simulator.satellite_size_buttons =
    Ok (map simulator.satellite_size_button [2; 4; 6; 8; 10; 12]%Z).
Proof. reflexivity. Qed.

Section SizeButtons.

Variable kepler_E : R -> R -> R.

Local Open Scope string_scope.

(** X9. Both button loops of simulator.py succeed with six buttons each.
    Every Earth-size button carries its size at exactly the position of the
    trace named Earth in the figure and every satellite-size button at
    exactly the position of the trace named Satellite, with one entry per
    trace and [None] elsewhere; the sizes are the multiples of 5 from 5 to
    30 and the even numbers from 2 to 12, and the initial sizes 15 and 6
    are among them. *)
Theorem size_buttons_address_their_trace :
  exists (fig : go.Figure) (earth_buttons sat_buttons : list simulator.Button),
    simulator.fig kepler_E = Ok fig /\
    simulator.earth_size_buttons = Ok earth_buttons /\
    simulator.satellite_size_buttons = Ok sat_buttons /\
    map simulator.label earth_buttons = ["5"; "10"; "15"; "20"; "25"; "30"] /\
    map simulator.label sat_buttons = ["2"; "4"; "6"; "8"; "10"; "12"] /\
    (forall b, In b earth_buttons -> carries_size_for "Earth" fig b) /\
    (forall b, In b sat_buttons -> carries_size_for "Satellite" fig b) /\
    In (simulator.earth_size_button simulator.earth_size) earth_buttons /\
    In (simulator.satellite_size_button simulator.satellite_size) sat_buttons.
Proof.
  do 3 eexists.
  split; [apply simulator_fig_Ok|].
  split; [apply earth_size_buttons_Ok|].
  split; [apply satellite_size_buttons_Ok|].
  split; [reflexivity|]. split; [reflexivity|].
  split; [|split; [|split]].
  - intros b Hb. apply in_map_iff in Hb. destruct Hb as [size [Hb _]].
    subst b. exists size. eexists.
    split; [reflexivity|]. split; [reflexivity|]. split; [reflexivity|].
    split; [reflexivity|].
    intros i tr Hi. cbn [go.data] in Hi.
    destruct i as [|[|[|i]]]; cbn in Hi.
    + inversion Hi; subst tr. split; [intros H; discriminate H | reflexivity].
    + inversion Hi; subst tr. split; [reflexivity | intros H; now elim H].
    + inversion Hi; subst tr. split; [intros H; discriminate H | reflexivity].
    + destruct i; discriminate Hi.
  - intros b Hb. apply in_map_iff in Hb. destruct Hb as [size [Hb _]].
    subst b. exists size. eexists.
    split; [reflexivity|]. split; [reflexivity|]. split; [reflexivity|].
    split; [reflexivity|].
    intros i tr Hi. cbn [go.data] in Hi.
    destruct i as [|[|[|i]]]; cbn in Hi.
    + inversion Hi; subst tr. split; [intros H; discriminate H | reflexivity].
    + inversion Hi; subst tr. split; [intros H; discriminate H | reflexivity].
    + inversion Hi; subst tr. split; [reflexivity | intros H; now elim H].
    + destruct i; discriminate Hi.
  - simpl. tauto.
  - simpl. tauto.
Qed.

End SizeButtons.

(** ** The sliders of the Dash layout *)

Lemma sma_slider_Ok :
  dash_simulation.sma_slider =
    Ok (dash_simulation.mkSlider "sma-slider" 7000 15000 500 7078
          [(7000, "7000"); (8000, "8000"); (9000, "9000"); (10000, "10000");
           (11000, "11000"); (12000, "12000"); (13000, "13000");
           (14000, "14000"); (15000, "15000")]%Z%string
          (Some [("placement", "bottom")]%string)).
Proof. reflexivity. Qed.

Lemma earth_size_slider_Ok :
  dash_simulation.earth_size_slider =
    Ok (dash_simulation.mkSlider "earth-size-slider" 5 30 1 15
          [(5, "5"); (10, "10"); (15, "15"); (20, "20"); (25, "25");
           (30, "30")]%Z%string
          None).
Proof. reflexivity. Qed.

Lemma satellite_size_slider_Ok :
  dash_simulation.satellite_size_slider =
    Ok (dash_simulation.mkSlider "satellite-size-slider" 2 12 1 6
          [(2, "2"); (4, "4"); (6, "6"); (8, "8"); (10, "10");
           (12, "12")]%Z%string
          None).
Proof. reflexivity. Qed.

Ltac each_mark :=
  repeat match goal with
         | H : _ \/ _ |- _ => destruct H as [H | H]
         | H : (_, _) = (_, _) |- _ => inversion H; subst; clear H
         | H : False |- _ => contradiction
         end.

Ltac distinct_keys :=
  repeat (constructor; [simpl; intuition discriminate|]); constructor.

(** X10. The three sliders of the layout are built without error and are
    the components the callback reads, in the order of its parameters;
    each starts inside its bounds, and its marks have distinct keys inside
    the bounds, each labelled with its key in decimal. *)
Theorem sliders_are_consistent :
  exists s_sma s_earth s_sat : dash_simulation.Slider,
    dash_simulation.sma_slider = Ok s_sma /\
    dash_simulation.earth_size_slider = Ok s_earth /\
    dash_simulation.satellite_size_slider = Ok s_sat /\
    map fst dash_simulation.callback_inputs =
      map dash_simulation.id [s_sma; s_earth; s_sat] /\
    dash_simulation.value s_sma =
      dash_simulation.default_sma dash_simulation.module_globals /\
    slider_consistent s_sma /\
    slider_consistent s_earth /\
    slider_consistent s_sat.
Proof.
  do 3 eexists.
  split; [apply sma_slider_Ok|].
  split; [apply earth_size_slider_Ok|].
  split; [apply satellite_size_slider_Ok|].
  split; [reflexivity|]. split; [reflexivity|].
  repeat match goal with
         | |- slider_consistent _ /\ _ => split
         end;
    (unfold slider_consistent;
     cbn [dash_simulation.min dash_simulation.max dash_simulation.value
          dash_simulation.marks];
     split; [simpl; lra|]; split; [distinct_keys|];
     intros k lbl Hin; simpl in Hin; each_mark;
     (split; [lra | reflexivity])).
Qed.

Section SliderDomain.

Variable kepler_E : R -> R -> R.

(** X11. A semi-major axis inside the bounds of the slider is valid for
    the callback's fixed eccentricity: it exceeds Earth's radius, the
    constructor accepts it, and the callback returns a figure with 100
    frames and leaves the globals as they were. *)
Theorem slider_axis_is_valid
    (s : dash_simulation.Slider) (sma : R) (earth_size satellite_size : Z) :
  dash_simulation.sma_slider = Ok s ->
  dash_simulation.min s <= sma <= dash_simulation.max s ->
  valid_elements Earth sma
    (dash_simulation.default_eccentricity dash_simulation.module_globals) /\
  (exists o : Orbit.t,
      dash_simulation.update_orbit_orbit sma dash_simulation.module_globals =
        (Ok o, dash_simulation.module_globals) /\
      Orbit.a o = sma) /\
  exists fig : go.Figure,
    dash_simulation.update_orbit kepler_E sma earth_size satellite_size
      dash_simulation.module_globals =
      (Ok fig, dash_simulation.module_globals) /\
    List.length (go.frames fig) = num.
Proof.
  intros Hs Hsma. rewrite sma_slider_Ok in Hs. inversion Hs. subst s.
  cbn [dash_simulation.min dash_simulation.max] in Hsma.
  split; [unfold valid_elements; simpl; lra|].
  split.
  - eexists. split; [apply update_orbit_orbit_eq | reflexivity].
  - eexists. split.
    + apply update_orbit_Ok. rewrite update_orbit_orbit_eq. reflexivity.
    + cbn [go.frames]. unfold range. now rewrite length_map, length_seq.
Qed.

(** The propagation over no time of an orbit that starts at true anomaly 0
    stays at true anomaly 0, when the solver answers 0 at mean anomaly 0. *)
Lemma propagate_0_from_perigee body a ecc inc raan argp :
  kepler_E 0 ecc = 0 ->
  propagate kepler_E (Orbit.mk body a ecc inc raan argp 0) 0 =
    Orbit.mk body a ecc inc raan argp 0.
Proof.
  intros Hsolve. unfold propagate. cbn [Orbit.attractor Orbit.a Orbit.ecc
    Orbit.inc Orbit.raan Orbit.argp Orbit.nu].
  f_equal.
  assert (HM0 : Orbit.E_to_M (Orbit.nu_to_E (rad 0) ecc) ecc = 0).
  { unfold Orbit.E_to_M, Orbit.nu_to_E, rad.
    replace (0 * PI / 180 / 2) with 0 by (field; apply PI_neq0).
    rewrite tan_0, Rmult_0_r, atan_0, Rmult_0_r, sin_0. ring. }
  rewrite HM0, Rmult_0_r, Rplus_0_r, Hsolve.
  unfold Orbit.E_to_nu.
  replace (0 / 2) with 0 by field.
  rewrite tan_0, Rmult_0_r, atan_0. field. apply PI_neq0.
Qed.

(** X12. With the true anomaly 0 that both scripts pass, the first sample,
    at time offset 0, lies at the perigee distance [a (1 - e)] from the
    centre, provided the solver answers 0 at mean anomaly 0. *)
Theorem first_sample_at_perigee
    (body : Body) (a ecc inc raan argp : R) :
  physical body -> valid_elements body a ecc -> 0 <= inc <= 180 ->
  kepler_E 0 ecc = 0 ->
  exists (o : Orbit.t) (pos : vec3),
    Orbit.from_classical body a ecc inc raan argp 0 = Ok o /\
    nth_error (samples kepler_E o) 0 = Some (0, pos) /\
    norm pos = a * (1 - ecc).
Proof.
  intros [Hk HR] [Ha He] Hi Hsolve.
  exists (Orbit.mk body a ecc inc raan argp 0).
  eexists.
  split.
  { rewrite from_classical_elliptic by assumption. now rewrite wrap_nu_0. }
  split; [apply nth_error_samples_0|].
  rewrite propagate_0_from_perigee by exact Hsolve.
  rewrite norm_r_elliptic by (simpl; lra).
  cbn [Orbit.a Orbit.ecc Orbit.nu]. unfold rad.
  replace (0 * PI / 180) with 0 by (field; apply PI_neq0).
  rewrite cos_0. field. lra.
Qed.

End SliderDomain.

(** ** The marks comprehension *)

Lemma marks_set_keys (d : list (Z * string)) (k : Z) (v : string) (k' : Z) :
  In k' (map fst (dash_simulation.marks_set d k v)) <->
  k' = k \/ In k' (map fst d).
Proof.
  induction d as [|[k0 v0] d IH]; simpl.
  - intuition.
  - destruct (Z.eqb_spec k0 k) as [Heq | Hne]; simpl.
    + subst k0. intuition.
    + rewrite IH. intuition.
Qed.

Lemma marks_set_NoDup (d : list (Z * string)) (k : Z) (v : string) :
  NoDup (map fst d) -> NoDup (map fst (dash_simulation.marks_set d k v)).
Proof.
  induction d as [|[k0 v0] d IH]; simpl; intros Hd.
  - constructor; [intros []|constructor].
  - inversion Hd as [|? ? Hnotin Hd']. subst.
    destruct (Z.eqb_spec k0 k) as [Heq | Hne]; simpl.
    + subst k0. now constructor.
    + constructor; [|now apply IH].
      rewrite marks_set_keys.
      intros [H | H]; [now apply Hne | now apply Hnotin].
Qed.

Lemma marks_set_items (d : list (Z * string)) (k : Z) (v : string)
    (k' : Z) (v' : string) :
  In (k', v') (dash_simulation.marks_set d k v) ->
  (k' = k /\ v' = v) \/ In (k', v') d.
Proof.
  induction d as [|[k0 v0] d IH]; simpl.
  - intros [H | []]. inversion H. now left.
  - destruct (Z.eqb_spec k0 k) as [Heq | Hne]; simpl.
    + intros [H | H]; [inversion H; now left | right; now right].
    + intros [H | H]; [right; now left|].
      destruct (IH H) as [Hk | Hin]; [now left | right; now right].
Qed.

(** The comprehension started from any dict: keys stay distinct, every
    label is its key in decimal, and the keys are the old ones and the new
    ones. *)
Lemma marks_fold_invariant (keys : list Z) (d : list (Z * string)) :
  NoDup (map fst d) ->
  (forall k lbl, In (k, lbl) d -> lbl = str_of_Z k) ->
  let d' :=
    fold_left (fun d i => dash_simulation.marks_set d i (str_of_Z i)) keys d in
  NoDup (map fst d') /\
  (forall k lbl, In (k, lbl) d' -> lbl = str_of_Z k) /\
  (forall k, In k (map fst d') <-> In k keys \/ In k (map fst d)).
Proof.
  revert d. induction keys as [|i keys IH]; intros d Hnd Hlbl; cbn zeta.
  - simpl. repeat split; try assumption; intuition.
  - simpl.
    destruct (IH (dash_simulation.marks_set d i (str_of_Z i)))
      as [H1 [H2 H3]].
    + now apply marks_set_NoDup.
    + intros k lbl Hin. apply marks_set_items in Hin.
      destruct Hin as [[Hk Hv] | Hin]; [now subst | now apply Hlbl].
    + split; [exact H1|]. split; [exact H2|].
      intros k. rewrite H3, marks_set_keys. intuition.
Qed.

(** X13. The marks comprehension of the sliders, for any list of keys:
    the dict has exactly the keys of the list, each once, and every key is
    labelled with its decimal; a key that occurs twice yields one mark. *)
Theorem marks_of_keys (keys : list Z) :
  NoDup (map fst (dash_simulation.marks_of keys)) /\
  (forall k, In k (map fst (dash_simulation.marks_of keys)) <-> In k keys) /\
  (forall k lbl, In (k, lbl) (dash_simulation.marks_of keys) <->
                 In k keys /\ lbl = str_of_Z k).
Proof.
  destruct (marks_fold_invariant keys []) as [H1 [H2 H3]];
    [constructor | intros k lbl [] |].
  fold (dash_simulation.marks_of keys) in H1, H2, H3.
  split; [exact H1|].
  assert (Hkeys : forall k, In k (map fst (dash_simulation.marks_of keys)) <->
                            In k keys).
  { intros k. rewrite H3. simpl. intuition. }
  split; [exact Hkeys|].
  intros k lbl. split.
  - intros Hin. split; [|now apply H2].
    apply Hkeys. apply in_map_iff. now exists (k, lbl).
  - intros [Hin Hlbl]. apply Hkeys in Hin. apply in_map_iff in Hin.
    destruct Hin as [[k0 lbl0] [Hfst Hin0]]. simpl in Hfst. subst k0.
    rewrite Hlbl, <- (H2 k lbl0 Hin0). exact Hin0.
Qed.

(** ** Concrete instances of the further properties *)

(** The hypothesis of X2 at the callback's defaults. *)
Lemma figure_traces_lengths_defaults :
  0 < 7078 /\
  exists fig : go.Figure,
    fst (dash_simulation.update_orbit (fun M _ => M) 7078 15 6
           dash_simulation.module_globals) = Ok fig /\
    exists path body sat : go.Scatter3d,
      go.data fig = [path; body; sat] /\
      trace_points num path /\ trace_points 1 body /\ trace_points 1 sat.
Proof.
  assert (Hsma : 0 < 7078) by lra.
  split; [exact Hsma|].
  destruct (figure_traces_have_matching_lengths (fun M _ => M) 7078 15 6 Hsma)
    as [_ [fig [Hfig [Hdata _]]]].
  exists fig. split; [exact Hfig | exact Hdata].
Defined.

(** The hypothesis of X3 at the callback's defaults. *)
Lemma marker_sizes_defaults :
  0 < 7078 /\
  exists (fig : go.Figure) (path body sat : go.Scatter3d),
    fst (dash_simulation.update_orbit (fun M _ => M) 7078 15 6
           dash_simulation.module_globals) = Ok fig /\
    go.data fig = [path; body; sat] /\
    go.marker body = Some (go.mkMarker 15 "blue") /\
    go.marker sat = Some (go.mkMarker 6 "green").
Proof.
  assert (Hsma : 0 < 7078) by lra.
  split; [exact Hsma|].
  destruct (marker_sizes_in_traces_and_frames (fun M _ => M) 7078 15 6 Hsma)
    as [[fig [path [body [sat [Hfig [Hdata [_ [_ [_ [_ [Hb [_ [Hs _]]]]]]]]]]]]] _].
  exists fig, path, body, sat. repeat split; assumption.
Defined.

(** The hypothesis of X4 at the callback's defaults. *)
Lemma first_frame_defaults :
  0 < 7078 /\
  exists (fig : go.Figure) (fr : go.Frame),
    fst (dash_simulation.update_orbit (fun M _ => M) 7078 15 6
           dash_simulation.module_globals) = Ok fig /\
    nth_error (go.frames fig) 0 = Some fr.
Proof.
  assert (Hsma : 0 < 7078) by lra.
  split; [exact Hsma|].
  destruct (first_frame_matches_initial_marker (fun M _ => M) 7078 15 6 Hsma)
    as [_ [fig [Hfig [path [body [sat [fr [p0 [b0 [s0 [_ [Hfr _]]]]]]]]]]]].
  exists fig, fr. split; assumption.
Defined.

(** The hypothesis of X6 at the callback's defaults. *)
Lemma frame_names_defaults :
  0 < 7078 /\
  exists fig : go.Figure,
    fst (dash_simulation.update_orbit (fun M _ => M) 7078 15 6
           dash_simulation.module_globals) = Ok fig /\
    NoDup (map go.frame_name (go.frames fig)).
Proof.
  assert (Hsma : 0 < 7078) by lra.
  split; [exact Hsma|].
  destruct (frame_names_are_distinct (fun M _ => M) 7078 15 6 Hsma)
    as [_ [fig [Hfig [Hnd _]]]].
  exists fig. split; assumption.
Defined.

(** The hypotheses of X7 at the default orbit: between 6370.2 km and
    7785.8 km. *)
Lemma sampled_positions_default_orbit :
  physical Earth /\ valid_elements Earth 7078 0.1 /\ 0 <= 45 <= 180 /\
  exists o : Orbit.t,
    Orbit.from_classical Earth 7078 0.1 45 0 0 0 = Ok o /\
    forall pos, In pos (propagated_positions (fun M _ => M) o) ->
                7078 * (1 - 0.1) <= norm pos <= 7078 * (1 + 0.1).
Proof.
  assert (Hv : valid_elements Earth 7078 0.1)
    by (unfold valid_elements; simpl; lra).
  assert (Hi : 0 <= 45 <= 180) by lra.
  split; [exact Earth_physical|]. split; [exact Hv|]. split; [exact Hi|].
  exact (sampled_positions_between_perigee_and_apogee (fun M _ => M)
           Earth 7078 0.1 45 0 0 0 Earth_physical Hv Hi).
Defined.

(** The hypotheses of X8 at the default orbit, for the solver that returns
    the mean anomaly: one turn more in, one turn more out. *)
Lemma last_sample_closes_default_orbit :
  physical Earth /\ valid_elements Earth 7078 0.1 /\ 0 <= 45 <= 180 /\
  (forall M : R, exists j : Z, M + 2 * PI = M + 2 * PI * IZR j) /\
  exists (o : Orbit.t) (pos : vec3),
    Orbit.from_classical Earth 7078 0.1 45 0 0 0 = Ok o /\
    nth_error (propagated_positions (fun M _ => M) o) 0 = Some pos /\
    nth_error (propagated_positions (fun M _ => M) o) (num - 1) = Some pos.
Proof.
  assert (Hv : valid_elements Earth 7078 0.1)
    by (unfold valid_elements; simpl; lra).
  assert (Hi : 0 <= 45 <= 180) by lra.
  assert (Hturn : forall M : R, exists j : Z,
             M + 2 * PI = M + 2 * PI * IZR j)
    by (intros M; exists 1%Z; lra).
  split; [exact Earth_physical|]. split; [exact Hv|]. split; [exact Hi|].
  split; [exact Hturn|].
  exact (last_sample_closes_the_loop (fun M _ => M)
           Earth 7078 0.1 45 0 0 0 Earth_physical Hv Hi Hturn).
Defined.

(** The hypotheses of X11 at the slider's initial value. *)
Lemma slider_axis_default :
  (exists s : dash_simulation.Slider,
      dash_simulation.sma_slider = Ok s /\
      dash_simulation.min s <= 7078 <= dash_simulation.max s) /\
  valid_elements Earth 7078 0.1 /\
  exists fig : go.Figure,
    dash_simulation.update_orbit (fun M _ => M) 7078 15 6
      dash_simulation.module_globals =
      (Ok fig, dash_simulation.module_globals) /\
    List.length (go.frames fig) = num.
Proof.
  assert (Hb : dash_simulation.min
                 (dash_simulation.mkSlider "sma-slider" 7000 15000 500 7078
                    [(7000, "7000"); (8000, "8000"); (9000, "9000");
                     (10000, "10000"); (11000, "11000"); (12000, "12000");
                     (13000, "13000"); (14000, "14000");
                     (15000, "15000")]%Z%string
                    (Some [("placement", "bottom")]%string)) <= 7078 <=
               dash_simulation.max
                 (dash_simulation.mkSlider "sma-slider" 7000 15000 500 7078
                    [(7000, "7000"); (8000, "8000"); (9000, "9000");
                     (10000, "10000"); (11000, "11000"); (12000, "12000");
                     (13000, "13000"); (14000, "14000");
                     (15000, "15000")]%Z%string
                    (Some [("placement", "bottom")]%string)))
    by (simpl; lra).
  destruct (slider_axis_is_valid (fun M _ => M) _ 7078 15 6 sma_slider_Ok Hb)
    as [Hv [_ Hfig]].
  split; [eexists; split; [exact sma_slider_Ok | exact Hb]|].
  split; [exact Hv | exact Hfig].
Defined.

(** The hypotheses of X12 at the default orbit, for the solver that returns
    the mean anomaly: the first sample is 6370.2 km from the centre. *)
Lemma first_sample_default_orbit :
  physical Earth /\ valid_elements Earth 7078 0.1 /\ 0 <= 45 <= 180 /\
  exists (o : Orbit.t) (pos : vec3),
    Orbit.from_classical Earth 7078 0.1 45 0 0 0 = Ok o /\
    nth_error (samples (fun M _ => M) o) 0 = Some (0, pos) /\
    norm pos = 7078 * (1 - 0.1).
Proof.
  assert (Hv : valid_elements Earth 7078 0.1)
    by (unfold valid_elements; simpl; lra).
  assert (Hi : 0 <= 45 <= 180) by lra.
  split; [exact Earth_physical|]. split; [exact Hv|]. split; [exact Hi|].
  exact (first_sample_at_perigee (fun M _ => M)
           Earth 7078 0.1 45 0 0 Earth_physical Hv Hi eq_refl).
Defined.
